(* ===================================================================== *)
(* blob-archiver: the archiver service (archiver/service) and the blob    *)
(* sidecar API (api/service), embedded in Rocq.                           *)
(*                                                                         *)
(* The beacon node and the data store are Go interfaces; here they are     *)
(* records of methods.  A call made by the service is answered as a        *)
(* function of the number of calls made before it (the field [tick] of    *)
(* the world), so a run may see any sequence of answers: a node that is    *)
(* down once and up afterwards, a head that moves between two polls.       *)
(* ===================================================================== *)

From stdpp Require Import gmap strings list fin_maps.
From Stdlib Require Import ZArith NArith Ascii String Lia.

Local Open Scope string_scope.
Local Open Scope list_scope.

(* --------------------------------------------------------------------- *)
(* Data model                                                              *)
(* --------------------------------------------------------------------- *)

(* common.Hash and phase0.Root are [32]byte: the 256-bit big-endian number. *)
Abbreviation Hash := N (only parsing).

(* Go's error values; the service only tests them against nil and logs them. *)
Abbreviation error := string (only parsing).

Inductive Result (A : Type) : Type :=
| Ok (a : A)
| Err (e : error).
Arguments Ok {A} a.
Arguments Err {A} e.

(* v1.BeaconBlockHeader: [ParentRoot] is Header.Message.ParentRoot. *)
Record BeaconBlockHeader : Type := mkHeader {
  Root : Hash;
  ParentRoot : Hash;
}.

(* deneb.BlobSidecar: the index of the blob in its block and the payload. *)
Record BlobSidecar : Type := mkSidecar {
  Index : N;
  Blob : list N;
}.

(* storage.BlobData: Header.BeaconBlockHash and BlobSidecars.Data. *)
Record BlobData : Type := mkBlobData {
  BeaconBlockHash : Hash;
  Data : list BlobSidecar;
}.

(* flags.ArchiverConfig, the fields the service reads. *)
Record ArchiverConfig : Type := mkConfig {
  OriginBlock : Hash;
  PollInterval : Z;
  MetricsEnabled : bool;
}.

(* The BeaconClient interface of the service: client.BeaconBlockHeadersProvider
   and client.BlobSidecarsProvider.  The first argument of a method is the
   number of calls made so far. *)
Module client.
Record BeaconClient : Type := mkBeacon {
  BeaconBlockHeader : nat -> string -> Result BeaconBlockHeader;
  BlobSidecars : nat -> string -> Result (list BlobSidecar);
}.
End client.

(** Modelled from the spec: the storage package (storage.DataStore and its two
    backends) is not among the sources.  Section 4.1: records are keyed by
    block hash; Exists has no side effect and answers false for a hash never
    written; Write persists or overwrites the record of its hash; both fail
    only when the backend is unavailable.  The records live in [store] of the
    world; [Unavailable] says at which calls the backend is down. *)
Record DataStore : Type := mkDataStore {
  Unavailable : nat -> option error;
}.

(* The ArchiverService struct.  [metricsServer] is what opmetrics.StartServer
   answers when Start calls it. *)
Record ArchiverService : Type := mkService {
  cfg : ArchiverConfig;
  beaconClient : client.BeaconClient;
  dataStoreClient : DataStore;
  metricsServer : Result unit;
}.

Inductive Level : Type := LvlDebug | LvlInfo | LvlError.

Inductive BlockSource : Type := BlockSourceBackfill | BlockSourceLive.

(* What a run does to the outside, in order. *)
Inductive Event : Type :=
| EvBeaconBlockHeader (block : string)
| EvBlobSidecars (block : string)
| EvExists (hash : Hash)
| EvWrite (data : BlobData)
| EvRead (hash : Hash)
| EvSleep (nanoseconds : Z)
| EvLog (lvl : Level) (msg : string)
| EvRecordStoredBlobs (count : nat)
| EvRecordProcessedBlock (source : BlockSource).

Record World : Type := mkWorld {
  tick : nat;
  store : gmap N (list BlobSidecar);
  trace : list Event;
}.

(* time.Second, in nanoseconds as time.Duration has it. *)
Definition Second : Z := 1000000000.

Definition backfillErrorRetryInterval : Z := 5 * Second.

(* --------------------------------------------------------------------- *)
(* phase0.Root.String: "0x" and 64 lower-case hexadecimal digits           *)
(* --------------------------------------------------------------------- *)

Definition hex_digit (n : N) : ascii :=
  match String.get (N.to_nat n) "0123456789abcdef" with
  | Some c => c
  | None => "0"%char
  end.

Fixpoint hex_of (digits : nat) (n : N) : string :=
  match digits with
  | O => ""
  | S d => hex_of d (n / 16) +:+ String (hex_digit (n mod 16)) ""
  end.

Definition Root_String (h : Hash) : string := "0x" +:+ hex_of 64 h.

(* --------------------------------------------------------------------- *)
(* The state monad of a run                                                *)
(* --------------------------------------------------------------------- *)

Definition M (A : Type) : Type := World -> A * World.

Definition ret {A : Type} (a : A) : M A := fun w => (a, w).

Definition bind {A B : Type} (m : M A) (k : A -> M B) : M B :=
  fun w => let (a, w') := m w in k a w'.

Declare Scope run_scope.
Delimit Scope run_scope with run.
Notation "x <- m ;; k" := (bind m (fun x => k))
  (at level 100, m at next level, right associativity) : run_scope.
Notation "m ;; k" := (bind m (fun _ => k))
  (at level 100, right associativity) : run_scope.
Local Open Scope run_scope.

Definition emit (e : Event) : M unit :=
  fun w => (tt, mkWorld (tick w) (store w) (trace w ++ [e])).

(* An outside call: it is recorded and moves the clock of calls. *)
Definition call (e : Event) : M nat :=
  fun w => (tick w, mkWorld (S (tick w)) (store w) (trace w ++ [e])).

Definition log (lvl : Level) (msg : string) : M unit := emit (EvLog lvl msg).

Definition Sleep (d : Z) : M unit := emit (EvSleep d).

(* c.BeaconBlockHeader(ctx, &api.BeaconBlockHeaderOpts{Block: block}) *)
Definition fetchHeader (c : client.BeaconClient) (block : string)
  : M (Result BeaconBlockHeader) :=
  t <- call (EvBeaconBlockHeader block) ;;
  ret (client.BeaconBlockHeader c t block).

(* c.BlobSidecars(ctx, &api.BlobSidecarsOpts{Block: block}) *)
Definition fetchBlobSidecars (c : client.BeaconClient) (block : string)
  : M (Result (list BlobSidecar)) :=
  t <- call (EvBlobSidecars block) ;;
  ret (client.BlobSidecars c t block).

(* d.Exists(ctx, hash) *)
Definition Exists (d : DataStore) (hash : Hash) : M (Result bool) :=
  t <- call (EvExists hash) ;;
  fun w =>
    match Unavailable d t with
    | Some e => (Err e, w)
    | None => (Ok (bool_decide (is_Some (store w !! hash))), w)
    end.

(* d.Write(ctx, blobData) *)
Definition Write (d : DataStore) (data : BlobData) : M (Result unit) :=
  t <- call (EvWrite data) ;;
  fun w =>
    match Unavailable d t with
    | Some e => (Err e, w)
    | None =>
        (Ok tt,
         mkWorld (tick w) (<[BeaconBlockHash data := Data data]> (store w))
                 (trace w))
    end.

(* d.Read(ctx, hash): Ok None is the NotFound answer. *)
Definition Read (d : DataStore) (hash : Hash) : M (Result (option BlobData)) :=
  t <- call (EvRead hash) ;;
  fun w =>
    match Unavailable d t with
    | Some e => (Err e, w)
    | None => (Ok (mkBlobData hash <$> store w !! hash), w)
    end.

(* --------------------------------------------------------------------- *)
(* archiver/service: persistBlobsForBlockToS3                              *)
(* --------------------------------------------------------------------- *)

Definition persistBlobsForBlockToS3 (a : ArchiverService)
  (blockIdentifier : string) : M (Result (BeaconBlockHeader * bool)) :=
  r <- fetchHeader (beaconClient a) blockIdentifier ;;
  match r with
  | Err e =>
      log LvlError "failed to fetch latest beacon block header" ;;
      ret (Err e)
  | Ok currentHeader =>
      r <- Exists (dataStoreClient a) (Root currentHeader) ;;
      match r with
      | Err e =>
          log LvlError "failed to check if blob exists" ;;
          ret (Err e)
      | Ok true =>
          log LvlDebug "blob already exists" ;;
          ret (Ok (currentHeader, true))
      | Ok false =>
          r <- fetchBlobSidecars (beaconClient a)
                 (Root_String (Root currentHeader)) ;;
          match r with
          | Err e =>
              log LvlError "failed to fetch blob sidecars" ;;
              ret (Err e)
          | Ok blobSidecars =>
              log LvlDebug "fetched blob sidecars" ;;
              let blobData :=
                mkBlobData (Root currentHeader) blobSidecars in
              r <- Write (dataStoreClient a) blobData ;;
              match r with
              | Err e =>
                  log LvlError "failed to write blob" ;;
                  ret (Err e)
              | Ok _ =>
                  emit (EvRecordStoredBlobs (List.length blobSidecars)) ;;
                  ret (Ok (currentHeader, false))
              end
          end
      end
  end.

(* --------------------------------------------------------------------- *)
(* Loops.  One turn of a Go for-loop either goes round again with the new  *)
(* values of the loop variables or leaves the function.  [iterate] runs at *)
(* most [fuel] turns; None says the loop is still going.                   *)
(* --------------------------------------------------------------------- *)

Inductive LoopStep (St R : Type) : Type :=
| Continue (s : St)
| Break (r : R).
Arguments Continue {St R} s.
Arguments Break {St R} r.

Fixpoint iterate {St R : Type} (body : St -> M (LoopStep St R))
  (fuel : nat) (s : St) : M (option R) :=
  match fuel with
  | O => ret None
  | S fuel' =>
      st <- body s ;;
      match st with
      | Continue s' => iterate body fuel' s'
      | Break r => ret (Some r)
      end
  end.

(* --------------------------------------------------------------------- *)
(* archiver/service: backfillBlobs                                         *)
(* --------------------------------------------------------------------- *)

(* The two ways out of backfillBlobs, with the hash each one logs. *)
Inductive BackfillExit : Type :=
| ReachedOrigin (hash : Hash)
| BackfillComplete (endHash : Hash).

(* One turn of [for !alreadyExists { ... }] on the loop variables
   (current, alreadyExists); the turn that finds the condition false runs
   the statement after the loop. *)
Definition backfillBlobs_body (a : ArchiverService)
  (st : BeaconBlockHeader * bool)
  : M (LoopStep (BeaconBlockHeader * bool) BackfillExit) :=
  let (current, alreadyExists) := st in
  if alreadyExists then
    log LvlInfo "backfill complete" ;;
    ret (Break (BackfillComplete (Root current)))
  else if (Root current =? OriginBlock (cfg a))%N then
    log LvlInfo "reached origin block" ;;
    ret (Break (ReachedOrigin (Root current)))
  else
    let previous := current in
    r <- persistBlobsForBlockToS3 a (Root_String (ParentRoot previous)) ;;
    match r with
    | Err e =>
        log LvlError "failed to persist blobs for block, will retry" ;;
        Sleep backfillErrorRetryInterval ;;
        ret (Continue (previous, false))
    | Ok (current, alreadyExists) =>
        (if negb alreadyExists
         then emit (EvRecordProcessedBlock BlockSourceBackfill)
         else ret tt) ;;
        ret (Continue (current, alreadyExists))
    end.

Definition backfillBlobs (a : ArchiverService) (latest : BeaconBlockHeader)
  (fuel : nat) : M (option BackfillExit) :=
  iterate (backfillBlobs_body a) fuel (latest, false).

(* --------------------------------------------------------------------- *)
(* archiver/service: processBlocksUntilKnownBlock                          *)
(* --------------------------------------------------------------------- *)

(* The two ways out of a poll: the return inside the loop, and the break
   followed by the last log line (startHash, endHash). *)
Inductive PollExit : Type :=
| PollAborted (err : error)
| PollRefreshed (startHash : Hash) (endHash : string).

(* One turn of the for-loop on the variables (start, currentBlockId);
   start is nil until the first header arrives. *)
Definition processBlocksUntilKnownBlock_body (a : ArchiverService)
  (st : option BeaconBlockHeader * string)
  : M (LoopStep (option BeaconBlockHeader * string) PollExit) :=
  let (start, currentBlockId) := st in
  r <- persistBlobsForBlockToS3 a currentBlockId ;;
  match r with
  | Err e =>
      log LvlError "failed to update live blobs for block" ;;
      ret (Break (PollAborted e))
  | Ok (current, alreadyExisted) =>
      let start := match start with None => current | Some s => s end in
      if negb alreadyExisted then
        emit (EvRecordProcessedBlock BlockSourceLive) ;;
        ret (Continue (Some start, Root_String (ParentRoot current)))
      else
        log LvlDebug "blob already exists" ;;
        log LvlInfo "live data refreshed" ;;
        ret (Break (PollRefreshed (Root start) currentBlockId))
  end.

Definition processBlocksUntilKnownBlock (a : ArchiverService) (fuel : nat)
  : M (option PollExit) :=
  log LvlDebug "refreshing live data" ;;
  iterate (processBlocksUntilKnownBlock_body a) fuel (None, "head").

(* --------------------------------------------------------------------- *)
(* archiver/service: trackLatestBlocks and Start                           *)
(* --------------------------------------------------------------------- *)

(* The three cases of the select in trackLatestBlocks. *)
Inductive SelectCase : Type := CtxDone | StopCh | TickC.

(* Start leaves backfillBlobs running in a goroutine next to
   trackLatestBlocks.  A schedule says whose turn it is: one turn of the
   backfill loop, or the next case the select takes. *)
Inductive Turn : Type :=
| TurnBackfill
| TurnSelect (c : SelectCase).

(* What a function that may still be running has done so far. *)
Inductive Outcome : Type :=
| Running
| Returned (err : option error).

(* trackLatestBlocks with the goroutine of Start beside it: [bf] holds the
   loop variables of backfillBlobs, None once it has returned.  [fuel]
   bounds the turns of one poll. *)
Fixpoint trackLatestBlocks (a : ArchiverService) (fuel : nat)
  (bf : option (BeaconBlockHeader * bool)) (turns : list Turn) : M Outcome :=
  match turns with
  | [] => ret Running
  | TurnBackfill :: rest =>
      match bf with
      | None => trackLatestBlocks a fuel None rest
      | Some st =>
          s <- backfillBlobs_body a st ;;
          match s with
          | Continue st' => trackLatestBlocks a fuel (Some st') rest
          | Break _ => trackLatestBlocks a fuel None rest
          end
      end
  | TurnSelect CtxDone :: _ => ret (Returned None)
  | TurnSelect StopCh :: _ => ret (Returned None)
  | TurnSelect TickC :: rest =>
      r <- processBlocksUntilKnownBlock a fuel ;;
      match r with
      | None => ret Running
      | Some _ => trackLatestBlocks a fuel bf rest
      end
  end.

Definition Start (a : ArchiverService) (fuel : nat) (turns : list Turn)
  : M Outcome :=
  r <- (if MetricsEnabled (cfg a) then
          log LvlInfo "starting metrics server" ;;
          match metricsServer a with
          | Err e => ret (Err e)
          | Ok _ => log LvlInfo "started metrics server" ;; ret (Ok tt)
          end
        else ret (Ok tt)) ;;
  match r with
  | Err e => ret (Returned (Some e))
  | Ok _ =>
      r <- persistBlobsForBlockToS3 a "head" ;;
      match r with
      | Err e =>
          log LvlError "failed to seed archiver with initial block" ;;
          ret (Returned (Some e))
      | Ok (currentBlob, _) =>
          trackLatestBlocks a fuel (Some (currentBlob, false)) turns
      end
  end.

(* --------------------------------------------------------------------- *)
(* api/service: the identifier resolver and the blob sidecar handler       *)
(* --------------------------------------------------------------------- *)

Definition is_digit (c : ascii) : bool :=
  let n := nat_of_ascii c in (48 <=? n)%nat && (n <=? 57)%nat.

Definition is_hex_char (c : ascii) : bool :=
  let n := nat_of_ascii c in
  is_digit c
  || ((97 <=? n)%nat && (n <=? 102)%nat)
  || ((65 <=? n)%nat && (n <=? 70)%nat).

Fixpoint string_forall (p : ascii -> bool) (s : string) : bool :=
  match s with
  | EmptyString => true
  | String c rest => p c && string_forall p rest
  end.

(** Modelled from the spec: api/service/api.go is not among the sources (its
    test is).  Section 4.3, rule 1: "0x" followed by exactly 64 hexadecimal
    characters, in either case. *)
Definition isHash (s : string) : bool :=
  match s with
  | String c0 (String c1 digits) =>
      Ascii.eqb c0 "0" && Ascii.eqb c1 "x"
      && (String.length digits =? 64)%nat
      && string_forall is_hex_char digits
  | _ => false
  end.

(** Modelled from the spec: api/service/api.go is not among the sources.
    Section 4.3, rule 2: one or more decimal digits only. *)
Definition isSlot (id : string) : bool :=
  match id with
  | EmptyString => false
  | _ => string_forall is_digit id
  end.

Definition knownIdentifiers : list string := ["genesis"; "finalized"; "head"].

(** Modelled from the spec: api/service/api.go is not among the sources.
    Section 4.3, rule 3: exact match against the fixed set. *)
Definition isKnownIdentifier (id : string) : bool :=
  bool_decide (id ∈ knownIdentifiers).

(* The variants of a BlockIdentifier (section 3). *)
Inductive BlockIdentifier : Type := ContentHash | Position | NamedAlias.

(** Modelled from the spec: api/service/api.go is not among the sources.
    Section 4.3: the rules in their priority order; None is the invalid
    identifier. *)
Definition classify (id : string) : option BlockIdentifier :=
  if isHash id then Some ContentHash
  else if isSlot id then Some Position
  else if isKnownIdentifier id then Some NamedAlias
  else None.

(* The error body of the API, {"code": ..., "message": ...}. *)
Record httpError : Type := mkHttpError {
  Code : Z;
  Message : string;
}.

Definition errUnknownBlock : httpError := mkHttpError 404 "Block not found".

Definition errServerError : httpError :=
  mkHttpError 500 "Internal server error".

Definition newBlockIdError (input : string) : httpError :=
  mkHttpError 400 ("invalid block id: " +:+ input).

(* The two encodings of a 200 body. *)
Inductive Format : Type := FormatSSZ | FormatJSON.

Inductive Body : Type :=
| BodyBlobs (format : Format) (data : list BlobSidecar)
| BodyError (e : httpError).

Record Response : Type := mkResponse {
  status : Z;
  body : Body;
}.

(* GET /eth/v1/beacon/blob_sidecars/{id}?indices=...  with its Accept header;
   None is a parameter or a header that is absent. *)
Record Request : Type := mkRequest {
  id : string;
  indices : option (gset N);
  Accept : option string;
}.

(* The API struct: the two handles it shares with the archiver. *)
Record API : Type := mkAPI {
  api_beaconClient : client.BeaconClient;
  api_dataStoreClient : DataStore;
}.

Definition writeError (e : httpError) : Response :=
  mkResponse (Code e) (BodyError e).

(** Modelled from the spec: api/service/api.go is not among the sources.
    Section 4.4, step 4: keep the entries whose position is in the requested
    set, in their order. *)
Fixpoint filterBlobs (blobs : list BlobSidecar) (requested : gset N)
  : list BlobSidecar :=
  match blobs with
  | [] => []
  | blob :: rest =>
      if bool_decide (Index blob ∈ requested)
      then blob :: filterBlobs rest requested
      else filterBlobs rest requested
  end.

(** Modelled from the spec: api/service/api.go is not among the sources.
    Section 4.4, step 5 and section 6: the binary media type selects the
    binary encoding, anything else the textual one. *)
Definition negotiate (accept : option string) : Format :=
  match accept with
  | Some "application/octet-stream" => FormatSSZ
  | _ => FormatJSON
  end.

(* The value of a hexadecimal digit, in either case. *)
Definition hex_value (c : ascii) : N :=
  let n := N_of_ascii c in
  if is_digit c then n - 48
  else if (97 <=? n)%N then n - 87
  else n - 55.

Fixpoint hex_to_N (digits : string) (acc : N) : N :=
  match digits with
  | EmptyString => acc
  | String c rest => hex_to_N rest (16 * acc + hex_value c)
  end.

(* common.HexToHash on a string that isHash accepts: the number written by
   the 64 digits after "0x". *)
Definition HexToHash (s : string) : Hash :=
  match s with
  | String _ (String _ digits) => hex_to_N digits 0
  | _ => 0%N
  end.

(** Modelled from the spec: api/service/api.go is not among the sources (its
    test is).  Section 4.4, steps 1 and 2: an invalid identifier is refused,
    a position or a named alias is resolved by the beacon node to a header,
    whose root is the hash of the block.  A content hash is the hash of the
    block as it stands and the node is not asked: TestAPIService is served the
    records of rootOne and rootTwo by their hash from a stub node that has
    headers under "finalized", "head" and "1234" only. *)
Definition resolveBlockHash (s : API) (raw : string) : M (httpError + Hash) :=
  match classify raw with
  | None => ret (inl (newBlockIdError raw))
  | Some ContentHash => ret (inr (HexToHash raw))
  | Some _ =>
      h <- fetchHeader (api_beaconClient s) raw ;;
      match h with
      | Err _ => ret (inl errUnknownBlock)
      | Ok header => ret (inr (Root header))
      end
  end.

(** Modelled from the spec: api/service/api.go is not among the sources.
    Section 4.4, steps 1 to 5.  A store that is unavailable is answered with
    a 5xx (section 7); the spec leaves its code and text open, 500 is used. *)
Definition blobSidecarHandler (s : API) (r : Request) : M Response :=
  k <- resolveBlockHash s (id r) ;;
  match k with
  | inl e => ret (writeError e)
  | inr hash =>
      d <- Read (api_dataStoreClient s) hash ;;
      match d with
      | Err _ => ret (writeError errServerError)
      | Ok None => ret (writeError errUnknownBlock)
      | Ok (Some result) =>
          let blobSidecars :=
            match indices r with
            | None => Data result
            | Some requested => filterBlobs (Data result) requested
            end in
          ret (mkResponse 200 (BodyBlobs (negotiate (Accept r)) blobSidecars))
      end
  end.

(* --------------------------------------------------------------------- *)
(* What a trace shows                                                      *)
(* --------------------------------------------------------------------- *)

(* The block identifiers asked of the beacon node for a header.  Each call of
   persistBlobsForBlockToS3 asks exactly once, first thing. *)
Definition headerCalls (tr : list Event) : list string :=
  omap (fun e => match e with EvBeaconBlockHeader b => Some b | _ => None end) tr.

Definition blobCalls (tr : list Event) : list string :=
  omap (fun e => match e with EvBlobSidecars b => Some b | _ => None end) tr.

Definition writes (tr : list Event) : list BlobData :=
  omap (fun e => match e with EvWrite d => Some d | _ => None end) tr.

Definition sleeps (tr : list Event) : list Z :=
  omap (fun e => match e with EvSleep d => Some d | _ => None end) tr.

(* The world after persistBlobsForBlockToS3 found the block already stored. *)
Definition afterKnown (block : string) (h : BeaconBlockHeader) (w : World)
  : World :=
  mkWorld (S (S (tick w))) (store w)
    (trace w ++ [EvBeaconBlockHeader block; EvExists (Root h);
                 EvLog LvlDebug "blob already exists"]).

(* The world after persistBlobsForBlockToS3 stored a new block. *)
Definition afterNew (block : string) (h : BeaconBlockHeader)
  (bs : list BlobSidecar) (w : World) : World :=
  mkWorld (S (S (S (S (tick w))))) (<[Root h := bs]> (store w))
    (trace w ++ [EvBeaconBlockHeader block; EvExists (Root h);
                 EvBlobSidecars (Root_String (Root h));
                 EvLog LvlDebug "fetched blob sidecars";
                 EvWrite (mkBlobData (Root h) bs);
                 EvRecordStoredBlobs (List.length bs)]).


(* --------------------------------------------------------------------- *)
(* A small chain to run the service on                                     *)
(* --------------------------------------------------------------------- *)

(* A beacon node that answers every call from two tables, and fails for an
   identifier that is in neither. *)
Definition StubBeaconClient (Headers : gmap string BeaconBlockHeader)
  (Blobs : gmap string (list BlobSidecar)) : client.BeaconClient :=
  client.mkBeacon
    (fun _ block =>
       match Headers !! block with
       | Some h => Ok h
       | None => Err "block not found"
       end)
    (fun _ block =>
       match Blobs !! block with
       | Some bs => Ok bs
       | None => Err "block not found"
       end).

(* A data store whose backend never fails. *)
Definition alwaysUp : DataStore := mkDataStore (fun _ => None).

Definition twoBlobs : list BlobSidecar :=
  [mkSidecar 0 [1%N]; mkSidecar 1 [2%N]].

(* Block n has hash n and parent n - 1. *)
Definition blockNo (n : N) : BeaconBlockHeader := mkHeader n (n - 1).

(* Blocks 7 to 10, the head being block 10. *)
Definition smallChain : client.BeaconClient :=
  StubBeaconClient
    (list_to_map [("head", blockNo 10); (Root_String 10, blockNo 10);
                  (Root_String 9, blockNo 9); (Root_String 8, blockNo 8);
                  (Root_String 7, blockNo 7)])
    (list_to_map [(Root_String 10, twoBlobs); (Root_String 9, twoBlobs);
                  (Root_String 8, twoBlobs); (Root_String 7, twoBlobs)]).

(* The archiver on the small chain, told to backfill down to [origin]. *)
Definition smallArchiver (origin : Hash) : ArchiverService :=
  mkService (mkConfig origin 12 false) smallChain alwaysUp (Ok tt).

Definition emptyWorld : World := mkWorld 0 ∅ [].

(* A world whose store already holds the given blocks. *)
Definition worldWith (hashes : list Hash) : World :=
  mkWorld 0 (list_to_map ((fun h => (h, twoBlobs)) <$> hashes)) [].

(* --------------------------------------------------------------------- *)
(* Chains served by the beacon node                                        *)
(* --------------------------------------------------------------------- *)

(* [served c first chain]: asked for [first] the node answers with the first
   block of [chain], asked for the parent root of that block with the second,
   and so on, each time with the header and (asked for the header's root) the
   blob sidecars, at whatever moment it is asked. *)
Inductive served (c : client.BeaconClient)
  : string -> list (BeaconBlockHeader * list BlobSidecar) -> Prop :=
| served_nil (first : string) : served c first []
| served_cons (first : string) (h : BeaconBlockHeader) (bs : list BlobSidecar)
    (rest : list (BeaconBlockHeader * list BlobSidecar)) :
    (forall t, client.BeaconBlockHeader c t first = Ok h) ->
    (forall t, client.BlobSidecars c t (Root_String (Root h)) = Ok bs) ->
    served c (Root_String (ParentRoot h)) rest ->
    served c first ((h, bs) :: rest).

(* The blocks of [chain] are the successive ancestors of [cur]. *)
Definition ancestry (c : client.BeaconClient) (cur : BeaconBlockHeader)
  (chain : list (BeaconBlockHeader * list BlobSidecar)) : Prop :=
  served c (Root_String (ParentRoot cur)) chain.

Definition roots (chain : list (BeaconBlockHeader * list BlobSidecar))
  : list Hash :=
  (fun p => Root (fst p)) <$> chain.

Definition records (chain : list (BeaconBlockHeader * list BlobSidecar))
  : list BlobData :=
  (fun p => mkBlobData (Root (fst p)) (snd p)) <$> chain.

(* The store with the blocks of [chain] added. *)
Definition storeWith (chain : list (BeaconBlockHeader * list BlobSidecar))
  (m : gmap N (list BlobSidecar)) : gmap N (list BlobSidecar) :=
  list_to_map ((fun p => (Root (fst p), snd p)) <$> chain) ∪ m.

(* The block identifiers under which a walk that starts by asking for
   [first] asks for the blocks of [chain] in turn. *)
Fixpoint walkIds (first : string)
  (chain : list (BeaconBlockHeader * list BlobSidecar)) : list string :=
  match chain with
  | [] => []
  | (h, _) :: rest => first :: walkIds (Root_String (ParentRoot h)) rest
  end.

(* The world after a walk stored the blocks of [chain] one after the other,
   counting each for [source]. *)
Fixpoint afterWalk (source : BlockSource) (first : string)
  (chain : list (BeaconBlockHeader * list BlobSidecar)) (w : World) : World :=
  match chain with
  | [] => w
  | (h, bs) :: rest =>
      afterWalk source (Root_String (ParentRoot h)) rest
        (snd (emit (EvRecordProcessedBlock source) (afterNew first h bs w)))
  end.

(* The block identifier a walk over [chain] asks for next. *)
Fixpoint walkNext (first : string)
  (chain : list (BeaconBlockHeader * list BlobSidecar)) : string :=
  match chain with
  | [] => first
  | (h, _) :: rest => walkNext (Root_String (ParentRoot h)) rest
  end.

(* The variable start of processBlocksUntilKnownBlock after a walk over
   [chain]: it keeps the first header it was given. *)
Definition startAfter (start : option BeaconBlockHeader)
  (chain : list (BeaconBlockHeader * list BlobSidecar))
  : option BeaconBlockHeader :=
  match start with
  | Some s => Some s
  | None => fst <$> head chain
  end.

(* The header a walk over [chain] from [cur] ends on. *)
Definition walkEnd (cur : BeaconBlockHeader)
  (chain : list (BeaconBlockHeader * list BlobSidecar)) : BeaconBlockHeader :=
  List.last (fst <$> chain) cur.

Definition storeUp (d : DataStore) : Prop :=
  forall t, Unavailable d t = None.

(* The headers a backward walk over [chain] from [cur] stands on when it asks
   for the next block: [cur], then each block of the chain but the last. *)
Fixpoint stands (cur : BeaconBlockHeader)
  (chain : list (BeaconBlockHeader * list BlobSidecar))
  : list BeaconBlockHeader :=
  match chain with
  | [] => []
  | (h, _) :: rest => cur :: stands h rest
  end.

(* The world with one more event in its trace. *)
Definition withEvents (evs : list Event) (w : World) : World :=
  mkWorld (tick w) (store w) (trace w ++ evs).

(* A beacon node that knows no block at all: every call fails. *)
Definition deadNode : client.BeaconClient := StubBeaconClient ∅ ∅.

Definition deadArchiver : ArchiverService :=
  mkService (mkConfig 7 12 false) deadNode alwaysUp (Ok tt).

(* The node [c], unreachable at the call number [t0] and at no other. *)
Definition downAt (t0 : nat) (c : client.BeaconClient) : client.BeaconClient :=
  client.mkBeacon
    (fun t block =>
       if (t =? t0)%nat then Err "connection refused"
       else client.BeaconBlockHeader c t block)
    (fun t block =>
       if (t =? t0)%nat then Err "connection refused"
       else client.BlobSidecars c t block).

(* The archiver on the small chain, whose node fails the very first call. *)
Definition flakyArchiver : ArchiverService :=
  mkService (mkConfig 7 12 false) (downAt 0 smallChain) alwaysUp (Ok tt).

(* The world in which Start makes its first call: the metrics server, when
   enabled, has been started and both log lines written. *)
Definition startWorld (a : ArchiverService) (w : World) : World :=
  if MetricsEnabled (cfg a)
  then withEvents [EvLog LvlInfo "starting metrics server";
                   EvLog LvlInfo "started metrics server"] w
  else w.

(* The same service with another configured origin block. *)
Definition withOrigin (origin : Hash) (a : ArchiverService) : ArchiverService :=
  mkService
    (mkConfig origin (PollInterval (cfg a)) (MetricsEnabled (cfg a)))
    (beaconClient a) (dataStoreClient a) (metricsServer a).

(* --------------------------------------------------------------------- *)
(* Identifier syntax, as the spec words it                                 *)
(* --------------------------------------------------------------------- *)

Definition hexAlphabet : string := "0123456789abcdefABCDEF".

Definition decimalAlphabet : string := "0123456789".

(* Every character of [s] is one of [alphabet]. *)
Definition over (alphabet : string) (s : string) : Prop :=
  forall c : ascii,
    In c (list_ascii_of_string s) -> In c (list_ascii_of_string alphabet).

(* The API over the small chain; "1234" is a slot that resolves to block 9. *)
Definition smallAPI : API :=
  mkAPI
    (StubBeaconClient
       (list_to_map [("head", blockNo 10); ("finalized", blockNo 9);
                     ("1234", blockNo 9)])
       ∅)
    alwaysUp.

(* --------------------------------------------------------------------- *)
(* Events by kind                                                          *)
(* --------------------------------------------------------------------- *)

(* The events that are calls to the beacon node or to the store; the others
   are log lines, metrics and sleeps. *)
Definition isCall (e : Event) : bool :=
  match e with
  | EvBeaconBlockHeader _ | EvBlobSidecars _ | EvExists _ | EvWrite _
  | EvRead _ => true
  | _ => false
  end.

(* The hashes under which a trace wrote records. *)
Definition writtenHashes (tr : list Event) : list Hash :=
  BeaconBlockHash <$> writes tr.

(* Each hash was written once, and the store holds what was written. *)
Definition writtenOnce (w : World) : Prop :=
  NoDup (writtenHashes (trace w))
  /\ forall d, d ∈ writes (trace w) ->
               store w !! BeaconBlockHash d = Some (Data d).


(* --------------------------------------------------------------------- *)
(* archiver/service: NewService, Stop, Stopped                             *)
(* --------------------------------------------------------------------- *)

(* The fields of ArchiverService that change after construction: a.stopped,
   whether a.stopCh has been closed, and whether a.metricsServer is set. *)
Record Lifecycle : Type := mkLifecycle {
  stopped : bool;
  stopChClosed : bool;
  metricsServerSet : bool;
}.

(* NewService: stopped is false, stopCh is a fresh channel, metricsServer is
   nil. *)
Definition NewService : Lifecycle := mkLifecycle false false false.

(* The fields once Start has passed its first block: metricsServer is set when
   metrics are enabled and the server has started. *)
Definition startedLifecycle (a : ArchiverService) : Lifecycle :=
  mkLifecycle false false
    (MetricsEnabled (cfg a)
     && match metricsServer a with Ok _ => true | Err _ => false end).

Definition ErrAlreadyStopped : error := "already stopped".

(* How a call ends: it returns, or it panics. *)
Inductive Ended (A : Type) : Type :=
| Returns (a : A)
| Panics.
Arguments Returns {A} a.
Arguments Panics {A}.

(* Stop; [serverStop] is what a.metricsServer.Stop(ctx) answers when it is
   called.  Closing a channel that is closed panics. *)
Definition Stop (serverStop : option error) (l : Lifecycle)
  : M (Ended (option error) * Lifecycle) :=
  if stopped l then ret (Returns (Some ErrAlreadyStopped), l)
  else
    log LvlInfo "Stopping Archiver" ;;
    let l1 := mkLifecycle true (stopChClosed l) (metricsServerSet l) in
    if stopChClosed l1 then ret (Panics, l1)
    else
      let l2 := mkLifecycle true true (metricsServerSet l1) in
      if metricsServerSet l2 then
        match serverStop with
        | Some err => ret (Returns (Some err), l2)
        | None => ret (Returns None, l2)
        end
      else ret (Returns None, l2).

Definition Stopped (l : Lifecycle) : bool := stopped l.

(* How often a trace called RecordStoredBlobs and RecordProcessedBlock. *)
Definition storedCount (tr : list Event) : nat :=
  List.length
    (omap (fun e => match e with EvRecordStoredBlobs n => Some n | _ => None end)
       tr).

Definition processedCount (tr : list Event) : nat :=
  List.length
    (omap (fun e => match e with
                    | EvRecordProcessedBlock s => Some s
                    | _ => None
                    end) tr).

(* From one world to the other, as many blocks were counted as processed as
   were counted as stored. *)
Definition balanced (w w' : World) : Prop :=
  (storedCount (trace w') + processedCount (trace w)
   = processedCount (trace w') + storedCount (trace w))%nat.

(* 1 when the answer of persistBlobsForBlockToS3 says the block was new. *)
Definition newBlock (r : Result (BeaconBlockHeader * bool)) : nat :=
  match r with
  | Ok (_, false) => 1
  | _ => 0
  end.
Ltac run :=
  unfold persistBlobsForBlockToS3, fetchHeader, fetchBlobSidecars, Exists,
    Write, Read, log, Sleep, emit, call, bind, ret;
  cbn [tick store trace fst snd].

(* Brings a trace built one event at a time to the form [old ++ new]. *)
Ltac flat_trace :=
  cbn [tick store trace fst snd]; rewrite <- ?app_assoc; cbn [app].

Lemma persist_known (a : ArchiverService) (block : string) (w : World)
  (h : BeaconBlockHeader) :
  client.BeaconBlockHeader (beaconClient a) (tick w) block = Ok h ->
  Unavailable (dataStoreClient a) (S (tick w)) = None ->
  is_Some (store w !! Root h) ->
  persistBlobsForBlockToS3 a block w = (Ok (h, true), afterKnown block h w).
Proof.
  intros Hh Hup Hin. run. rewrite Hh. cbn [tick store trace]. rewrite Hup.
  case_bool_decide; [| done].
  unfold afterKnown. by flat_trace.
Qed.

Lemma persist_new (a : ArchiverService) (block : string) (w : World)
  (h : BeaconBlockHeader) (bs : list BlobSidecar) :
  client.BeaconBlockHeader (beaconClient a) (tick w) block = Ok h ->
  Unavailable (dataStoreClient a) (S (tick w)) = None ->
  store w !! Root h = None ->
  client.BlobSidecars (beaconClient a) (S (S (tick w))) (Root_String (Root h))
    = Ok bs ->
  Unavailable (dataStoreClient a) (S (S (S (tick w)))) = None ->
  persistBlobsForBlockToS3 a block w = (Ok (h, false), afterNew block h bs w).
Proof.
  intros Hh Hup Hout Hbs Hup'. run. rewrite Hh. cbn [tick store trace].
  rewrite Hup. case_bool_decide as Hin.
  { rewrite Hout in Hin. by destruct Hin. }
  cbn [tick store trace]. rewrite Hbs. cbn [tick store trace]. rewrite Hup'.
  cbn [BeaconBlockHash Data]. unfold afterNew. by flat_trace.
Qed.

Lemma persist_header_err (a : ArchiverService) (block : string) (w : World)
  (e : error) :
  client.BeaconBlockHeader (beaconClient a) (tick w) block = Err e ->
  persistBlobsForBlockToS3 a block w
  = (Err e,
     mkWorld (S (tick w)) (store w)
       (trace w ++ [EvBeaconBlockHeader block;
                    EvLog LvlError "failed to fetch latest beacon block header"])).
Proof. intros Hh. run. rewrite Hh. by flat_trace. Qed.

(* --------------------------------------------------------------------- *)
(* C1                                                                      *)
(* --------------------------------------------------------------------- *)

(** C1: persistBlobsForBlockToS3 asks the beacon node for the header first and
    the store for Exists of the header's root second.  When Exists answers
    true it returns (header, true), the store is as before, and the run made
    no other call: no blob fetch, no Write.  When Exists answers false it
    fetches the blob sidecars of the header's root, calls Write with a record
    keyed by that root, and (both succeeding) returns (header, false) with the
    record in the store. *)
Theorem C1_persist_exists_gate (a : ArchiverService) (block : string)
  (w : World) (h : BeaconBlockHeader) :
  fst (fetchHeader (beaconClient a) block w) = Ok h ->
  let w1 := snd (fetchHeader (beaconClient a) block w) in
  (fst (Exists (dataStoreClient a) (Root h) w1) = Ok true ->
   exists w',
     persistBlobsForBlockToS3 a block w = (Ok (h, true), w')
     /\ trace w' = trace w ++ [EvBeaconBlockHeader block; EvExists (Root h);
                               EvLog LvlDebug "blob already exists"]
     /\ store w' = store w)
  /\
  (fst (Exists (dataStoreClient a) (Root h) w1) = Ok false ->
   forall bs : list BlobSidecar,
     client.BlobSidecars (beaconClient a) (tick w + 2) (Root_String (Root h))
       = Ok bs ->
     Unavailable (dataStoreClient a) (tick w + 3) = None ->
     exists w',
       persistBlobsForBlockToS3 a block w = (Ok (h, false), w')
       /\ trace w' = trace w ++ [EvBeaconBlockHeader block; EvExists (Root h);
                                 EvBlobSidecars (Root_String (Root h));
                                 EvLog LvlDebug "fetched blob sidecars";
                                 EvWrite (mkBlobData (Root h) bs);
                                 EvRecordStoredBlobs (List.length bs)]
       /\ store w' = <[Root h := bs]> (store w)).
Proof.
  unfold fetchHeader, Exists, call, bind, ret. cbn [fst snd tick store trace].
  intros Hh. split.
  - intros Hex. destruct (Unavailable _ _) eqn:Hup; [discriminate |].
    cbn [fst] in Hex. injection Hex as Hex.
    apply bool_decide_eq_true_1 in Hex.
    exists (afterKnown block h w). by rewrite (persist_known a block w h).
  - intros Hex bs Hbs Hup'. destruct (Unavailable _ _) eqn:Hup; [discriminate |].
    cbn [fst] in Hex. injection Hex as Hex.
    apply bool_decide_eq_false_1 in Hex.
    exists (afterNew block h bs w).
    replace (tick w + 2)%nat with (S (S (tick w))) in Hbs by lia.
    replace (tick w + 3)%nat with (S (S (S (tick w)))) in Hup' by lia.
    rewrite (persist_new a block w h bs); try done.
    by apply eq_None_not_Some.
Qed.

Lemma C1_persist_exists_gate_witness :
  (exists w',
     persistBlobsForBlockToS3 (smallArchiver 7) "head" (worldWith [10%N])
       = (Ok (blockNo 10, true), w')
     /\ trace w' = [EvBeaconBlockHeader "head"; EvExists 10%N;
                    EvLog LvlDebug "blob already exists"]
     /\ store w' = store (worldWith [10%N]))
  /\
  (exists w',
     persistBlobsForBlockToS3 (smallArchiver 7) "head" emptyWorld
       = (Ok (blockNo 10, false), w')
     /\ trace w' = [EvBeaconBlockHeader "head"; EvExists 10%N;
                    EvBlobSidecars (Root_String 10);
                    EvLog LvlDebug "fetched blob sidecars";
                    EvWrite (mkBlobData 10 twoBlobs);
                    EvRecordStoredBlobs 2]
     /\ store w' = <[10%N := twoBlobs]> ∅).
Proof.
  split.
  - apply (C1_persist_exists_gate (smallArchiver 7) "head" (worldWith [10%N])
             (blockNo 10)); reflexivity.
  - apply (C1_persist_exists_gate (smallArchiver 7) "head" emptyWorld
             (blockNo 10)); reflexivity.
Defined.

(* --------------------------------------------------------------------- *)
(* Loops                                                                   *)
(* --------------------------------------------------------------------- *)

Lemma iterate_S {St R : Type} (body : St -> M (LoopStep St R)) (fuel : nat)
  (s : St) (w : World) :
  iterate body (S fuel) s w
  = match body s w with
    | (Continue s', w') => iterate body fuel s' w'
    | (Break r, w') => (Some r, w')
    end.
Proof.
  cbn [iterate]. unfold bind, ret. by destruct (body s w) as [[s' | r] w'].
Qed.

(* A loop that has returned returns the same with more fuel. *)
Lemma iterate_more {St R : Type} (body : St -> M (LoopStep St R)) (fuel : nat) :
  forall (s : St) (w : World) (r : R) (w' : World) (extra : nat),
    iterate body fuel s w = (Some r, w') ->
    iterate body (fuel + extra) s w = (Some r, w').
Proof.
  induction fuel as [| fuel IH]; intros s w r w' extra H.
  - discriminate.
  - cbn [Nat.add]. rewrite iterate_S in *.
    destruct (body s w) as [[s' | r'] w1]; [by apply IH | done].
Qed.

(* What holds of every state the loop passes through holds where it leaves. *)
Lemma iterate_exit {St R : Type} (body : St -> M (LoopStep St R))
  (I : St -> World -> Prop) (Q : R -> World -> Prop) :
  (forall s w s' w', I s w -> body s w = (Continue s', w') -> I s' w') ->
  (forall s w r w', I s w -> body s w = (Break r, w') -> Q r w') ->
  forall fuel s w r w',
    I s w -> iterate body fuel s w = (Some r, w') -> Q r w'.
Proof.
  intros Hcont Hbreak. induction fuel as [| fuel IH]; intros s w r w' Hi H.
  - discriminate.
  - rewrite iterate_S in H.
    destruct (body s w) as [[s' | r'] w1] eqn:Hb.
    + eapply IH; [| exact H]. eapply Hcont; eauto.
    + injection H as -> ->. eapply Hbreak; eauto.
Qed.

Ltac run_loop :=
  unfold backfillBlobs_body, processBlocksUntilKnownBlock_body, log, Sleep,
    emit, bind, ret;
  cbn [tick store trace fst snd].

(* --------------------------------------------------------------------- *)
(* Walks over new blocks                                                   *)
(* --------------------------------------------------------------------- *)

Lemma afterWalk_tick source first chain w :
  tick (afterWalk source first chain w) = (tick w + 4 * List.length chain)%nat.
Proof.
  revert first w. induction chain as [| [h bs] rest IH]; intros first w.
  - cbn. lia.
  - cbn [afterWalk]. rewrite IH. cbn. lia.
Qed.

Lemma roots_cons h bs rest : roots ((h, bs) :: rest) = Root h :: roots rest.
Proof. reflexivity. Qed.

Lemma last_cons_default {A : Type} (l : list A) :
  forall d x : A, List.last (x :: l) d = List.last l x.
Proof.
  induction l as [| y l IH]; intros d x; [done |].
  change (List.last (x :: y :: l) d) with (List.last (y :: l) d).
  by rewrite !IH.
Qed.

Lemma walkEnd_cons cur h bs rest :
  walkEnd cur ((h, bs) :: rest) = walkEnd h rest.
Proof. unfold walkEnd. rewrite fmap_cons. apply last_cons_default. Qed.

Lemma afterWalk_store source first chain w :
  NoDup (roots chain) ->
  store (afterWalk source first chain w) = storeWith chain (store w).
Proof.
  unfold storeWith. revert first w.
  induction chain as [| [h bs] rest IH]; intros first w Hnd.
  - cbn. by rewrite (left_id_L ∅ (∪)).
  - cbn [afterWalk]. rewrite roots_cons in Hnd.
    apply NoDup_cons in Hnd as [Hh Hnd].
    rewrite IH by done. cbn.
    rewrite <- insert_union_l. symmetry. apply insert_union_r.
    apply not_elem_of_list_to_map_1. rewrite <- list_fmap_compose.
    exact Hh.
Qed.

Lemma afterWalk_writes source first chain w :
  writes (trace (afterWalk source first chain w))
  = writes (trace w) ++ records chain.
Proof.
  unfold writes, records. revert first w.
  induction chain as [| [h bs] rest IH]; intros first w.
  - cbn. by rewrite app_nil_r.
  - cbn [afterWalk]. rewrite IH. cbn. rewrite !omap_app. cbn.
    by rewrite ?app_nil_r, <- ?app_assoc.
Qed.

Lemma afterWalk_headerCalls source first chain w :
  headerCalls (trace (afterWalk source first chain w))
  = headerCalls (trace w) ++ walkIds first chain.
Proof.
  unfold headerCalls. revert first w.
  induction chain as [| [h bs] rest IH]; intros first w.
  - cbn. by rewrite app_nil_r.
  - cbn [afterWalk]. rewrite IH. cbn. rewrite !omap_app. cbn.
    by rewrite ?app_nil_r, <- ?app_assoc.
Qed.

Lemma afterWalk_sleeps source first chain w :
  sleeps (trace (afterWalk source first chain w)) = sleeps (trace w).
Proof.
  unfold sleeps. revert first w.
  induction chain as [| [h bs] rest IH]; intros first w.
  - done.
  - cbn [afterWalk]. rewrite IH. cbn. rewrite !omap_app. cbn.
    by rewrite ?app_nil_r.
Qed.

(* --------------------------------------------------------------------- *)
(* One turn of the backfill loop                                           *)
(* --------------------------------------------------------------------- *)

Section BackfillTurn.
Variable a : ArchiverService.

Lemma backfill_body_done cur w :
  backfillBlobs_body a (cur, true) w
  = (Break (BackfillComplete (Root cur)),
     withEvents [EvLog LvlInfo "backfill complete"] w).
Proof. reflexivity. Qed.

Lemma backfill_body_origin cur w :
  Root cur = OriginBlock (cfg a) ->
  backfillBlobs_body a (cur, false) w
  = (Break (ReachedOrigin (Root cur)),
     withEvents [EvLog LvlInfo "reached origin block"] w).
Proof.
  intros H. unfold backfillBlobs_body.
  apply N.eqb_eq in H. by rewrite H.
Qed.

Lemma backfill_body_new cur w h w1 :
  Root cur <> OriginBlock (cfg a) ->
  persistBlobsForBlockToS3 a (Root_String (ParentRoot cur)) w
    = (Ok (h, false), w1) ->
  backfillBlobs_body a (cur, false) w
  = (Continue (h, false),
     withEvents [EvRecordProcessedBlock BlockSourceBackfill] w1).
Proof.
  intros H Hp. unfold backfillBlobs_body.
  apply N.eqb_neq in H. rewrite H. unfold bind at 1. by rewrite Hp.
Qed.

Lemma backfill_body_known cur w h w1 :
  Root cur <> OriginBlock (cfg a) ->
  persistBlobsForBlockToS3 a (Root_String (ParentRoot cur)) w
    = (Ok (h, true), w1) ->
  backfillBlobs_body a (cur, false) w = (Continue (h, true), w1).
Proof.
  intros H Hp. unfold backfillBlobs_body.
  apply N.eqb_neq in H. rewrite H. unfold bind at 1. by rewrite Hp.
Qed.

Lemma backfill_body_err cur w e w1 :
  Root cur <> OriginBlock (cfg a) ->
  persistBlobsForBlockToS3 a (Root_String (ParentRoot cur)) w = (Err e, w1) ->
  backfillBlobs_body a (cur, false) w
  = (Continue (cur, false),
     withEvents [EvLog LvlError "failed to persist blobs for block, will retry";
                 EvSleep backfillErrorRetryInterval] w1).
Proof.
  intros H Hp. unfold backfillBlobs_body.
  apply N.eqb_neq in H. rewrite H. unfold bind at 1. rewrite Hp.
  run_loop. unfold withEvents. by flat_trace.
Qed.

(* Walking over new blocks, none of them the origin: one turn each. *)
Lemma backfill_walk chain :
  storeUp (dataStoreClient a) ->
  forall cur w fuel,
    ancestry (beaconClient a) cur chain ->
    NoDup (roots chain) ->
    (forall r, r ∈ roots chain -> store w !! r = None) ->
    Forall (fun h => Root h <> OriginBlock (cfg a)) (stands cur chain) ->
    iterate (backfillBlobs_body a) (List.length chain + fuel) (cur, false) w
    = iterate (backfillBlobs_body a) fuel (walkEnd cur chain, false)
        (afterWalk BlockSourceBackfill (Root_String (ParentRoot cur)) chain w).
Proof.
  intros Hup. induction chain as [| [h bs] rest IH];
    intros cur w fuel Hanc Hnd Hnew Hnot.
  - reflexivity.
  - unfold ancestry in Hanc.
    inversion Hanc as [| ? ? ? ? Hh Hbs Hrest]; subst.
    rewrite roots_cons in Hnd. apply NoDup_cons in Hnd as [Hfresh Hnd].
    cbn [stands] in Hnot. apply Forall_cons in Hnot as [Hcur Hnot].
    cbn [List.length Nat.add]. rewrite iterate_S.
    rewrite (backfill_body_new cur w h
               (afterNew (Root_String (ParentRoot cur)) h bs w)); [| done |].
    2:{ apply persist_new; try done.
        apply Hnew. rewrite roots_cons. apply list_elem_of_here. }
    rewrite IH; try done.
    { by rewrite walkEnd_cons. }
    intros r Hr. cbn [withEvents afterNew store].
    rewrite lookup_insert_ne.
    + apply Hnew. rewrite roots_cons. by apply list_elem_of_further.
    + intros <-. by apply Hfresh.
Qed.
End BackfillTurn.

(* --------------------------------------------------------------------- *)
(* C2                                                                      *)
(* --------------------------------------------------------------------- *)



(* --------------------------------------------------------------------- *)
(* What any call of persistBlobsForBlockToS3 does, whatever it is answered *)
(* --------------------------------------------------------------------- *)

Lemma persist_effects (a : ArchiverService) (block : string) (w : World) :
  exists evs,
    trace (snd (persistBlobsForBlockToS3 a block w))
    = trace w ++ EvBeaconBlockHeader block :: evs
    /\ headerCalls evs = []
    /\ sleeps evs = [].
Proof.
  run.
  destruct (client.BeaconBlockHeader _ _ _) as [h | e]; flat_trace;
    [| by eexists].
  destruct (Unavailable _ _) as [e |]; flat_trace; [by eexists |].
  case_bool_decide; flat_trace; [by eexists |].
  destruct (client.BlobSidecars _ _ _) as [bs | e]; flat_trace; [| by eexists].
  destruct (Unavailable _ _) as [e |]; flat_trace; by eexists.
Qed.

Lemma headerCalls_app (l k : list Event) :
  headerCalls (l ++ k) = headerCalls l ++ headerCalls k.
Proof. apply omap_app. Qed.

Lemma sleeps_app (l k : list Event) : sleeps (l ++ k) = sleeps l ++ sleeps k.
Proof. apply omap_app. Qed.

Lemma writes_app (l k : list Event) : writes (l ++ k) = writes l ++ writes k.
Proof. apply omap_app. Qed.

Lemma persist_headerCalls (a : ArchiverService) (block : string) (w : World) :
  headerCalls (trace (snd (persistBlobsForBlockToS3 a block w)))
  = headerCalls (trace w) ++ [block].
Proof.
  destruct (persist_effects a block w) as (evs & -> & Hh & _).
  rewrite headerCalls_app. cbn. unfold headerCalls in Hh. by rewrite Hh.
Qed.

Lemma persist_sleeps (a : ArchiverService) (block : string) (w : World) :
  sleeps (trace (snd (persistBlobsForBlockToS3 a block w))) = sleeps (trace w).
Proof.
  destruct (persist_effects a block w) as (evs & -> & _ & Hs).
  rewrite sleeps_app. cbn. unfold sleeps in Hs. by rewrite Hs, app_nil_r.
Qed.

(* --------------------------------------------------------------------- *)
(* One turn of the loop of a poll                                          *)
(* --------------------------------------------------------------------- *)

Section PollTurn.
Variable a : ArchiverService.

Lemma poll_body_err start block w e w1 :
  persistBlobsForBlockToS3 a block w = (Err e, w1) ->
  processBlocksUntilKnownBlock_body a (start, block) w
  = (Break (PollAborted e),
     withEvents [EvLog LvlError "failed to update live blobs for block"] w1).
Proof.
  intros Hp. unfold processBlocksUntilKnownBlock_body, bind at 1.
  by rewrite Hp.
Qed.

Lemma poll_body_new start block w h w1 :
  persistBlobsForBlockToS3 a block w = (Ok (h, false), w1) ->
  processBlocksUntilKnownBlock_body a (start, block) w
  = (Continue (Some (default h start), Root_String (ParentRoot h)),
     withEvents [EvRecordProcessedBlock BlockSourceLive] w1).
Proof.
  intros Hp. unfold processBlocksUntilKnownBlock_body, bind at 1.
  rewrite Hp. by destruct start.
Qed.

Lemma poll_body_known start block w h w1 :
  persistBlobsForBlockToS3 a block w = (Ok (h, true), w1) ->
  processBlocksUntilKnownBlock_body a (start, block) w
  = (Break (PollRefreshed (Root (default h start)) block),
     withEvents [EvLog LvlDebug "blob already exists";
                 EvLog LvlInfo "live data refreshed"] w1).
Proof.
  intros Hp. unfold processBlocksUntilKnownBlock_body, bind at 1.
  rewrite Hp. run_loop. cbn [negb]. unfold withEvents. flat_trace.
  by destruct start.
Qed.

(* Walking over new blocks: one turn each, and nothing stops the walk. *)
Lemma poll_walk chain :
  storeUp (dataStoreClient a) ->
  forall first start w fuel,
    served (beaconClient a) first chain ->
    NoDup (roots chain) ->
    (forall r, r ∈ roots chain -> store w !! r = None) ->
    iterate (processBlocksUntilKnownBlock_body a) (List.length chain + fuel)
      (start, first) w
    = iterate (processBlocksUntilKnownBlock_body a) fuel
        (startAfter start chain, walkNext first chain)
        (afterWalk BlockSourceLive first chain w).
Proof.
  intros Hup. induction chain as [| [h bs] rest IH];
    intros first start w fuel Hserved Hnd Hnew.
  - by destruct start.
  - inversion Hserved as [| ? ? ? ? Hh Hbs Hrest]; subst.
    rewrite roots_cons in Hnd. apply NoDup_cons in Hnd as [Hfresh Hnd].
    cbn [List.length Nat.add]. rewrite iterate_S.
    rewrite (poll_body_new start first w h (afterNew first h bs w)).
    2:{ apply persist_new; try done.
        apply Hnew. rewrite roots_cons. apply list_elem_of_here. }
    rewrite IH; try done.
    { by destruct start. }
    intros r Hr. cbn [withEvents afterNew store].
    rewrite lookup_insert_ne.
    + apply Hnew. rewrite roots_cons. by apply list_elem_of_further.
    + intros <-. by apply Hfresh.
Qed.
End PollTurn.

Lemma iterate_trace {St R : Type} (body : St -> M (LoopStep St R)) :
  (forall s w, exists evs, trace (snd (body s w)) = trace w ++ evs) ->
  forall fuel s w,
    exists evs, trace (snd (iterate body fuel s w)) = trace w ++ evs.
Proof.
  intros Hbody. induction fuel as [| fuel IH]; intros s w.
  - exists []. cbn. by rewrite app_nil_r.
  - rewrite iterate_S. destruct (Hbody s w) as [evs Hevs].
    destruct (body s w) as [[s' | r] w1]; cbn [snd] in *.
    + destruct (IH s' w1) as [evs' ->]. rewrite Hevs.
      exists (evs ++ evs'). by rewrite app_assoc.
    + by exists evs.
Qed.

Lemma poll_body_trace (a : ArchiverService) (start : option BeaconBlockHeader)
  (block : string) (w : World) :
  exists evs,
    trace (snd (processBlocksUntilKnownBlock_body a (start, block) w))
    = trace w ++ EvBeaconBlockHeader block :: evs.
Proof.
  destruct (persist_effects a block w) as (evs & Hevs & _).
  destruct (persistBlobsForBlockToS3 a block w) as [[[h [|]] | e] w1] eqn:Hp;
    cbn [snd] in Hevs.
  - rewrite (poll_body_known a start block w h w1 Hp). cbn. rewrite Hevs.
    eexists. by rewrite <- app_assoc.
  - rewrite (poll_body_new a start block w h w1 Hp). cbn. rewrite Hevs.
    eexists. by rewrite <- app_assoc.
  - rewrite (poll_body_err a start block w e w1 Hp). cbn. rewrite Hevs.
    eexists. by rewrite <- app_assoc.
Qed.

Lemma poll_body_extends (a : ArchiverService)
  (s : option BeaconBlockHeader * string) (w : World) :
  exists evs,
    trace (snd (processBlocksUntilKnownBlock_body a s w)) = trace w ++ evs.
Proof.
  destruct s as [start block].
  destruct (poll_body_trace a start block w) as [evs Hevs]. by eexists.
Qed.

Lemma poll_unfold (a : ArchiverService) (fuel : nat) (w : World) :
  processBlocksUntilKnownBlock a fuel w
  = iterate (processBlocksUntilKnownBlock_body a) fuel (None, "head")
      (withEvents [EvLog LvlDebug "refreshing live data"] w).
Proof. reflexivity. Qed.

(* --------------------------------------------------------------------- *)
(* C3                                                                      *)
(* --------------------------------------------------------------------- *)

(** C3: a poll (processBlocksUntilKnownBlock) first asks for "head".  When the
    node serves a run of blocks not yet stored from "head" backwards and then
    a block that is stored, and no call fails, the poll writes exactly the new
    blocks, asking for each under the parent root of the one before, asks once
    for the stored block, and returns.  In particular, when the head is new
    and its parent is stored, the poll writes the head and nothing else, and
    its only header requests are "head" and the parent.  When a call of
    persistBlobsForBlockToS3 fails, the loop returns on the spot: the failing
    identifier was asked for once, nothing sleeps; and trackLatestBlocks goes
    on to its next select, where a tick starts a new poll from "head". *)
Theorem C3_poll_stops_at_known_block (a : ArchiverService) (w : World) :
  (forall fuel, exists evs,
     trace (snd (processBlocksUntilKnownBlock a (S fuel) w))
     = trace w ++ EvLog LvlDebug "refreshing live data"
               :: EvBeaconBlockHeader "head" :: evs)
  /\
  (forall (chain : list (BeaconBlockHeader * list BlobSidecar))
          (known : BeaconBlockHeader),
     storeUp (dataStoreClient a) ->
     served (beaconClient a) "head" chain ->
     NoDup (roots chain) ->
     (forall r, r ∈ roots chain -> store w !! r = None) ->
     (forall t, client.BeaconBlockHeader (beaconClient a) t
                  (walkNext "head" chain) = Ok known) ->
     is_Some (store w !! Root known) ->
     exists w',
       (forall fuel, List.length chain < fuel ->
          processBlocksUntilKnownBlock a fuel w
          = (Some (PollRefreshed (Root (default known (fst <$> head chain)))
                     (walkNext "head" chain)), w'))
       /\ store w' = storeWith chain (store w)
       /\ writes (trace w') = writes (trace w) ++ records chain
       /\ headerCalls (trace w')
          = headerCalls (trace w) ++ walkIds "head" chain
              ++ [walkNext "head" chain]
       /\ sleeps (trace w') = sleeps (trace w))
  /\
  (forall (h parent : BeaconBlockHeader) (bs : list BlobSidecar),
     storeUp (dataStoreClient a) ->
     (forall t, client.BeaconBlockHeader (beaconClient a) t "head" = Ok h) ->
     (forall t, client.BlobSidecars (beaconClient a) t (Root_String (Root h))
                = Ok bs) ->
     store w !! Root h = None ->
     (forall t, client.BeaconBlockHeader (beaconClient a) t
                  (Root_String (ParentRoot h)) = Ok parent) ->
     is_Some (store w !! Root parent) ->
     exists w',
       (forall fuel, 1 < fuel ->
          processBlocksUntilKnownBlock a fuel w
          = (Some (PollRefreshed (Root h) (Root_String (ParentRoot h))), w'))
       /\ store w' = <[Root h := bs]> (store w)
       /\ writes (trace w') = writes (trace w) ++ [mkBlobData (Root h) bs]
       /\ headerCalls (trace w')
          = headerCalls (trace w) ++ ["head"; Root_String (ParentRoot h)])
  /\
  (forall (fuel : nat) (start : option BeaconBlockHeader) (block : string)
          (w0 : World) (e : error) (w1 : World),
     persistBlobsForBlockToS3 a block w0 = (Err e, w1) ->
     let w' :=
       withEvents [EvLog LvlError "failed to update live blobs for block"] w1 in
     iterate (processBlocksUntilKnownBlock_body a) (S fuel) (start, block) w0
     = (Some (PollAborted e), w')
     /\ headerCalls (trace w') = headerCalls (trace w0) ++ [block]
     /\ sleeps (trace w') = sleeps (trace w0))
  /\
  (forall (fuel : nat) (bf : option (BeaconBlockHeader * bool))
          (rest : list Turn) (exit : PollExit) (w' : World),
     processBlocksUntilKnownBlock a fuel w = (Some exit, w') ->
     trackLatestBlocks a fuel bf (TurnSelect TickC :: rest) w
     = trackLatestBlocks a fuel bf rest w').
Proof.
  assert (Hwalk :
    forall (chain : list (BeaconBlockHeader * list BlobSidecar))
           (known : BeaconBlockHeader),
      storeUp (dataStoreClient a) ->
      served (beaconClient a) "head" chain ->
      NoDup (roots chain) ->
      (forall r, r ∈ roots chain -> store w !! r = None) ->
      (forall t, client.BeaconBlockHeader (beaconClient a) t
                   (walkNext "head" chain) = Ok known) ->
      is_Some (store w !! Root known) ->
      exists w',
        (forall fuel, List.length chain < fuel ->
           processBlocksUntilKnownBlock a fuel w
           = (Some (PollRefreshed (Root (default known (fst <$> head chain)))
                      (walkNext "head" chain)), w'))
        /\ store w' = storeWith chain (store w)
        /\ writes (trace w') = writes (trace w) ++ records chain
        /\ headerCalls (trace w')
           = headerCalls (trace w) ++ walkIds "head" chain
               ++ [walkNext "head" chain]
        /\ sleeps (trace w') = sleeps (trace w)).
  { intros chain known Hup Hserved Hnd Hnew Hknown Hstored.
    set (w0 := withEvents [EvLog LvlDebug "refreshing live data"] w).
    set (w1 := afterWalk BlockSourceLive "head" chain w0).
    assert (Hs1 : store w1 = storeWith chain (store w)).
    { unfold w1. by rewrite afterWalk_store. }
    assert (Hin : is_Some (store w1 !! Root known)).
    { rewrite Hs1. unfold storeWith. apply lookup_union_is_Some. by right. }
    exists (withEvents [EvLog LvlDebug "blob already exists";
                        EvLog LvlInfo "live data refreshed"]
              (afterKnown (walkNext "head" chain) known w1)).
    split; [| split; [| split; [| split]]].
    - intros fuel Hfuel. rewrite poll_unfold.
      replace fuel with (List.length chain + S (fuel - S (List.length chain)))%nat
        by lia.
      rewrite (poll_walk a chain Hup "head" None w0) by done.
      rewrite iterate_S.
      by rewrite (poll_body_known a _ _ _ known
                    (afterKnown (walkNext "head" chain) known w1))
        by (by apply persist_known).
    - done.
    - cbn [withEvents afterKnown trace]. rewrite !writes_app.
      unfold w1. rewrite afterWalk_writes. cbn. rewrite writes_app. cbn.
      by rewrite ?app_nil_r, <- ?app_assoc.
    - cbn [withEvents afterKnown trace]. rewrite !headerCalls_app.
      unfold w1. rewrite afterWalk_headerCalls. cbn. rewrite headerCalls_app.
      cbn. by rewrite ?app_nil_r, <- ?app_assoc.
    - cbn [withEvents afterKnown trace]. rewrite !sleeps_app.
      unfold w1. rewrite afterWalk_sleeps. cbn. rewrite sleeps_app. cbn.
      by rewrite ?app_nil_r, <- ?app_assoc. }
  split; [| split; [exact Hwalk | split; [| split]]].
  - intros fuel. rewrite poll_unfold, iterate_S.
    destruct (poll_body_trace a None "head"
                (withEvents [EvLog LvlDebug "refreshing live data"] w))
      as [evs Hevs].
    destruct (processBlocksUntilKnownBlock_body a _ _) as [[s' | r] w1];
      cbn [snd] in *.
    + destruct (iterate_trace (processBlocksUntilKnownBlock_body a)
                  (poll_body_extends a) fuel s' w1) as [evs' ->].
      rewrite Hevs. cbn. eexists. by rewrite <- !app_assoc.
    + rewrite Hevs. cbn. eexists. by rewrite <- !app_assoc.
  - intros h parent bs Hup Hh Hbs Hnew Hp Hstored.
    destruct (Hwalk [(h, bs)] parent) as (w' & Hrun & Hstore & Hw & Hc & _);
      try done.
    + by repeat constructor.
    + apply NoDup_singleton.
    + intros r Hr. apply list_elem_of_singleton in Hr. by subst.
    + exists w'. split; [exact Hrun |]. split; [| by split].
      rewrite Hstore. unfold storeWith. cbn.
      by rewrite insert_empty, <- insert_union_singleton_l.
  - intros fuel start block w0 e w1 Hp. cbn zeta.
    rewrite iterate_S, (poll_body_err a start block w0 e w1 Hp).
    split; [done |]. cbn [withEvents trace].
    pose proof (persist_headerCalls a block w0) as Hc.
    pose proof (persist_sleeps a block w0) as Hs.
    rewrite Hp in Hc, Hs. cbn [snd] in Hc, Hs.
    rewrite headerCalls_app, sleeps_app, Hc, Hs. cbn.
    by rewrite ?app_nil_r, <- ?app_assoc.
  - intros fuel bf rest exit w' Hp. cbn [trackLatestBlocks].
    unfold bind at 1. by rewrite Hp.
Qed.

Lemma C3_poll_stops_at_known_block_witness :
  (exists w',
     (forall fuel, 1 < fuel ->
        processBlocksUntilKnownBlock (smallArchiver 7) fuel (worldWith [9%N])
        = (Some (PollRefreshed 10 (Root_String 9)), w'))
     /\ store w' = <[10%N := twoBlobs]> (store (worldWith [9%N]))
     /\ writes (trace w') = [mkBlobData 10 twoBlobs]
     /\ headerCalls (trace w') = ["head"; Root_String 9])
  /\ (exists w',
     iterate (processBlocksUntilKnownBlock_body deadArchiver) 5 (None, "head")
       emptyWorld
     = (Some (PollAborted "block not found"), w')
     /\ headerCalls (trace w') = ["head"]
     /\ sleeps (trace w') = []).
Proof.
  split.
  - destruct (C3_poll_stops_at_known_block (smallArchiver 7) (worldWith [9%N]))
      as (_ & _ & Hhead & _).
    apply (Hhead (blockNo 10) (blockNo 9) twoBlobs).
    + intros t. reflexivity.
    + intros t. reflexivity.
    + intros t. reflexivity.
    + reflexivity.
    + intros t. reflexivity.
    + by eexists.
  - destruct (C3_poll_stops_at_known_block deadArchiver emptyWorld)
      as (_ & _ & _ & Herr & _).
    eexists.
    apply (Herr 4 None "head" emptyWorld "block not found"). reflexivity.
Defined.

(* --------------------------------------------------------------------- *)
(* C4                                                                      *)
(* --------------------------------------------------------------------- *)




(* --------------------------------------------------------------------- *)
(* C5                                                                      *)
(* --------------------------------------------------------------------- *)

(* trackLatestBlocks has no error to return, whatever the node and the store
   answer and however the backfill goroutine is scheduled. *)
Lemma trackLatestBlocks_no_error (a : ArchiverService) (fuel : nat)
  (turns : list Turn) :
  forall (bf : option (BeaconBlockHeader * bool)) (w : World) (e : error),
    fst (trackLatestBlocks a fuel bf turns w) <> Returned (Some e).
Proof.
  induction turns as [| turn rest IH]; intros bf w e; [done |].
  destruct turn as [| [| |]]; cbn [trackLatestBlocks]; try done.
  - destruct bf as [st |]; [| apply IH].
    unfold bind at 1.
    destruct (backfillBlobs_body a st w) as [[st' | r] w1]; apply IH.
  - unfold bind at 1.
    destruct (processBlocksUntilKnownBlock a fuel w) as [[exit |] w1];
      [apply IH | done].
Qed.

Lemma Start_seeded (a : ArchiverService) (fuel : nat) (turns : list Turn)
  (w : World) (h : BeaconBlockHeader) (existed : bool) (w1 : World) :
  (MetricsEnabled (cfg a) = true -> metricsServer a = Ok tt) ->
  persistBlobsForBlockToS3 a "head" (startWorld a w) = (Ok (h, existed), w1) ->
  Start a fuel turns w = trackLatestBlocks a fuel (Some (h, false)) turns w1.
Proof.
  intros Hm Hp. unfold Start, startWorld in *.
  destruct (MetricsEnabled (cfg a)).
  - rewrite Hm by done. run_loop.
    unfold withEvents in Hp. cbn [tick store trace] in Hp.
    rewrite <- app_assoc. cbn [app]. by rewrite Hp.
  - unfold bind, ret. by rewrite Hp.
Qed.

Lemma Start_seed_failed (a : ArchiverService) (fuel : nat) (turns : list Turn)
  (w : World) (e : error) (w1 : World) :
  (MetricsEnabled (cfg a) = true -> metricsServer a = Ok tt) ->
  persistBlobsForBlockToS3 a "head" (startWorld a w) = (Err e, w1) ->
  Start a fuel turns w
  = (Returned (Some e),
     withEvents [EvLog LvlError "failed to seed archiver with initial block"]
       w1).
Proof.
  intros Hm Hp. unfold Start, startWorld in *.
  destruct (MetricsEnabled (cfg a)).
  - rewrite Hm by done. run_loop.
    unfold withEvents in Hp. cbn [tick store trace] in Hp.
    rewrite <- app_assoc. cbn [app]. by rewrite Hp.
  - unfold bind, ret. rewrite Hp. by run_loop.
Qed.

(** C5, the claim as it stands, fails on the first call of Start: when the
    node cannot be asked for "head", Start logs "failed to seed archiver with
    initial block" and returns the error.  So it is not true that no failure
    met while ingesting makes Start return an error. *)
Lemma C5_seed_failure_is_fatal :
  fst (Start deadArchiver 5 [TurnSelect TickC] emptyWorld)
  = Returned (Some "block not found")
  /\ ~ (forall (a : ArchiverService) (fuel : nat) (turns : list Turn)
               (w : World) (e : error),
          metricsServer a = Ok tt ->
          fst (Start a fuel turns w) <> Returned (Some e)).
Proof.
  split; [reflexivity |].
  intros H.
  by apply (H deadArchiver 5 [TurnSelect TickC] emptyWorld "block not found").
Qed.

(** C5, amended: once Start has seeded the archiver, no failure of the beacon
    node or of the store makes it return an error, whatever is answered and
    however the backfill goroutine and the polls are scheduled: Start is still
    running or has returned nil.  A failed call in the backfill loop leaves the
    loop going from the same header; a failed call in a poll ends that poll.
    The first call of Start is the exception: when persistBlobsForBlockToS3 of
    "head" fails there, Start returns that error. *)
Theorem C5_no_error_after_seeding (a : ArchiverService) (fuel : nat)
  (turns : list Turn) (w : World) :
  (MetricsEnabled (cfg a) = true -> metricsServer a = Ok tt) ->
  (forall (h : BeaconBlockHeader) (existed : bool) (w1 : World),
     persistBlobsForBlockToS3 a "head" (startWorld a w) = (Ok (h, existed), w1) ->
     fst (Start a fuel turns w) = Running
     \/ fst (Start a fuel turns w) = Returned None)
  /\
  (forall (e : error) (w1 : World),
     persistBlobsForBlockToS3 a "head" (startWorld a w) = (Err e, w1) ->
     fst (Start a fuel turns w) = Returned (Some e))
  /\
  (forall (bf : option (BeaconBlockHeader * bool)) (w0 : World) (e : error),
     fst (trackLatestBlocks a fuel bf turns w0) <> Returned (Some e))
  /\
  (forall (cur : BeaconBlockHeader) (w0 : World) (e : error) (w1 : World),
     Root cur <> OriginBlock (cfg a) ->
     persistBlobsForBlockToS3 a (Root_String (ParentRoot cur)) w0 = (Err e, w1) ->
     exists w2,
       backfillBlobs_body a (cur, false) w0 = (Continue (cur, false), w2))
  /\
  (forall (start : option BeaconBlockHeader) (block : string) (w0 : World)
          (e : error) (w1 : World),
     persistBlobsForBlockToS3 a block w0 = (Err e, w1) ->
     exists w2,
       processBlocksUntilKnownBlock_body a (start, block) w0
       = (Break (PollAborted e), w2)).
Proof.
  intros Hm. split; [| split; [| split; [| split]]].
  - intros h existed w1 Hp.
    rewrite (Start_seeded a fuel turns w h existed w1 Hm Hp).
    pose proof (trackLatestBlocks_no_error a fuel turns (Some (h, false)) w1)
      as Hno.
    destruct (fst (trackLatestBlocks a fuel (Some (h, false)) turns w1))
      as [| [e |]]; [by left | | by right].
    by destruct (Hno e).
  - intros e w1 Hp. by rewrite (Start_seed_failed a fuel turns w e w1 Hm Hp).
  - apply trackLatestBlocks_no_error.
  - intros cur w0 e w1 Ho Hp. eexists.
    by apply (backfill_body_err a cur w0 e w1).
  - intros start block w0 e w1 Hp. eexists.
    by apply (poll_body_err a start block w0 e w1).
Qed.

Lemma C5_no_error_after_seeding_witness :
  (fst (Start flakyArchiver 5
          [TurnBackfill; TurnSelect TickC; TurnBackfill; TurnSelect StopCh]
          (mkWorld 1 ∅ [])) = Running
   \/ fst (Start flakyArchiver 5
             [TurnBackfill; TurnSelect TickC; TurnBackfill; TurnSelect StopCh]
             (mkWorld 1 ∅ [])) = Returned None)
  /\ fst (Start deadArchiver 5 [TurnSelect TickC] emptyWorld)
     = Returned (Some "block not found").
Proof.
  split.
  - destruct (C5_no_error_after_seeding flakyArchiver 5
                [TurnBackfill; TurnSelect TickC; TurnBackfill; TurnSelect StopCh]
                (mkWorld 1 ∅ [])) as (Hok & _); [discriminate |].
    apply (Hok (blockNo 10) false
             (snd (persistBlobsForBlockToS3 flakyArchiver "head"
                     (mkWorld 1 ∅ [])))).
    reflexivity.
  - destruct (C5_no_error_after_seeding deadArchiver 5 [TurnSelect TickC]
                emptyWorld) as (_ & Hfail & _); [discriminate |].
    apply (Hfail "block not found"
             (snd (persistBlobsForBlockToS3 deadArchiver "head" emptyWorld))).
    reflexivity.
Defined.

(* --------------------------------------------------------------------- *)
(* C10                                                                     *)
(* --------------------------------------------------------------------- *)

(** C10: a poll does not look at the configured origin block: with any other
    origin it does the same.  It returns in two ways only, after a call of
    persistBlobsForBlockToS3 that failed or one that answered
    alreadyExisted = true.  So when the node serves from "head" backwards a
    run of blocks of any length, none of them stored, and no call fails, the
    poll writes every one of them and is still walking after the last,
    wherever the origin block lies among them.  The backfill loop, for its
    part, returns without a call when its header has the origin hash. *)
Theorem C10_poll_has_no_origin_bound (a : ArchiverService) (w : World) :
  (forall (origin : Hash) (fuel : nat),
     processBlocksUntilKnownBlock (withOrigin origin a) fuel w
     = processBlocksUntilKnownBlock a fuel w)
  /\
  (forall (fuel : nat) (exit : PollExit) (w' : World),
     processBlocksUntilKnownBlock a fuel w = (Some exit, w') ->
     (exists e block w0 w1,
        exit = PollAborted e
        /\ persistBlobsForBlockToS3 a block w0 = (Err e, w1))
     \/ (exists h startHash block w0 w1,
           exit = PollRefreshed startHash block
           /\ persistBlobsForBlockToS3 a block w0 = (Ok (h, true), w1)))
  /\
  (forall chain : list (BeaconBlockHeader * list BlobSidecar),
     storeUp (dataStoreClient a) ->
     served (beaconClient a) "head" chain ->
     NoDup (roots chain) ->
     (forall r, r ∈ roots chain -> store w !! r = None) ->
     exists w',
       processBlocksUntilKnownBlock a (List.length chain) w = (None, w')
       /\ store w' = storeWith chain (store w)
       /\ writes (trace w') = writes (trace w) ++ records chain
       /\ headerCalls (trace w') = headerCalls (trace w) ++ walkIds "head" chain)
  /\
  (forall (seed : BeaconBlockHeader) (fuel : nat),
     Root seed = OriginBlock (cfg a) ->
     backfillBlobs a seed (S fuel) w
     = (Some (ReachedOrigin (OriginBlock (cfg a))),
        withEvents [EvLog LvlInfo "reached origin block"] w)).
Proof.
  split; [| split; [| split]].
  - reflexivity.
  - intros fuel exit w'. rewrite poll_unfold.
    apply (iterate_exit (processBlocksUntilKnownBlock_body a)
             (fun _ _ => True)
             (fun exit _ =>
                (exists e block w0 w1,
                   exit = PollAborted e
                   /\ persistBlobsForBlockToS3 a block w0 = (Err e, w1))
                \/ (exists h startHash block w0 w1,
                      exit = PollRefreshed startHash block
                      /\ persistBlobsForBlockToS3 a block w0
                         = (Ok (h, true), w1)))); [done | | done].
    intros [start block] w0 r w0' _ Hb.
    destruct (persistBlobsForBlockToS3 a block w0) as [[[h [|]] | e] w1] eqn:Hp.
    + rewrite (poll_body_known a start block w0 h w1 Hp) in Hb.
      injection Hb as <- <-. right. by exists h, (Root (default h start)),
        block, w0, w1.
    + rewrite (poll_body_new a start block w0 h w1 Hp) in Hb. discriminate.
    + rewrite (poll_body_err a start block w0 e w1 Hp) in Hb.
      injection Hb as <- <-. left. by exists e, block, w0, w1.
  - intros chain Hup Hserved Hnd Hnew.
    set (w0 := withEvents [EvLog LvlDebug "refreshing live data"] w).
    exists (afterWalk BlockSourceLive "head" chain w0).
    split; [| split; [| split]].
    + rewrite poll_unfold.
      replace (List.length chain) with (List.length chain + 0)%nat at 1 by lia.
      by rewrite (poll_walk a chain Hup "head" None w0).
    + by rewrite afterWalk_store.
    + rewrite afterWalk_writes. cbn. rewrite writes_app. cbn.
      by rewrite app_nil_r.
    + rewrite afterWalk_headerCalls. cbn. rewrite headerCalls_app. cbn.
      by rewrite app_nil_r.
  - intros seed fuel Ho. unfold backfillBlobs.
    rewrite iterate_S, backfill_body_origin by done. by rewrite Ho.
Qed.

Lemma C10_poll_has_no_origin_bound_witness :
  (exists w',
     processBlocksUntilKnownBlock (smallArchiver 9) 4 emptyWorld = (None, w')
     /\ store w' = <[10%N := twoBlobs]> (<[9%N := twoBlobs]>
                     (<[8%N := twoBlobs]> (<[7%N := twoBlobs]> ∅)))
     /\ writes (trace w')
        = [mkBlobData 10 twoBlobs; mkBlobData 9 twoBlobs;
           mkBlobData 8 twoBlobs; mkBlobData 7 twoBlobs])
  /\ fst (backfillBlobs (smallArchiver 9) (blockNo 9) 4 emptyWorld)
     = Some (ReachedOrigin 9).
Proof.
  destruct (C10_poll_has_no_origin_bound (smallArchiver 9) emptyWorld)
    as (_ & _ & Hwalk & Hback).
  split.
  - destruct (Hwalk [(blockNo 10, twoBlobs); (blockNo 9, twoBlobs);
                     (blockNo 8, twoBlobs); (blockNo 7, twoBlobs)])
      as (w' & Hrun & Hstore & Hwrites & _).
    + intros t. reflexivity.
    + repeat constructor.
    + by apply (bool_decide_unpack _).
    + intros r _. apply lookup_empty.
    + exists w'. by repeat split.
  - by rewrite (Hback (blockNo 9) 3 eq_refl).
Defined.

(* --------------------------------------------------------------------- *)
(* C6                                                                      *)
(* --------------------------------------------------------------------- *)

Lemma is_hex_char_alphabet (c : ascii) :
  is_hex_char c = existsb (Ascii.eqb c) (list_ascii_of_string hexAlphabet).
Proof. destruct c as [[] [] [] [] [] [] [] []]; reflexivity. Qed.

Lemma is_digit_alphabet (c : ascii) :
  is_digit c = existsb (Ascii.eqb c) (list_ascii_of_string decimalAlphabet).
Proof. destruct c as [[] [] [] [] [] [] [] []]; reflexivity. Qed.

Lemma existsb_eqb_In (c : ascii) (l : list ascii) :
  existsb (Ascii.eqb c) l = true <-> In c l.
Proof.
  rewrite existsb_exists. split.
  - intros (x & Hin & Heq). apply Ascii.eqb_eq in Heq. by subst.
  - intros Hin. exists c. split; [done | apply Ascii.eqb_refl].
Qed.

Lemma string_forall_over (p : ascii -> bool) (alphabet s : string) :
  (forall c, p c = existsb (Ascii.eqb c) (list_ascii_of_string alphabet)) ->
  string_forall p s = true <-> over alphabet s.
Proof.
  intros Hp. unfold over. induction s as [| c s IH]; cbn.
  - split; [by intros _ c [] | done].
  - rewrite andb_true_iff, IH, Hp, existsb_eqb_In. split.
    + intros [Hc Hs] c' [<- | Hin]; [done | by apply Hs].
    + intros H. split; [apply H; by left | intros c' Hin; apply H; by right].
Qed.

Lemma isHash_spec (s : string) :
  isHash s = true
  <-> exists digits,
        s = "0x" +:+ digits /\ String.length digits = 64%nat
        /\ over hexAlphabet digits.
Proof.
  split.
  - destruct s as [| c0 [| c1 digits]]; [done | done |]. cbn [isHash].
    rewrite !andb_true_iff. intros [[[H0 H1] Hlen] Hhex].
    apply Ascii.eqb_eq in H0, H1. subst. apply Nat.eqb_eq in Hlen.
    exists digits. split; [done |]. split; [done |].
    by apply (string_forall_over is_hex_char), Hhex; apply is_hex_char_alphabet.
  - intros (digits & -> & Hlen & Hhex).
    change (isHash ("0x" +:+ digits))
      with (Ascii.eqb "0" "0" && Ascii.eqb "x" "x"
            && (String.length digits =? 64)%nat
            && string_forall is_hex_char digits).
    rewrite Hlen, !Ascii.eqb_refl, Nat.eqb_refl. cbn [andb].
    by apply (string_forall_over is_hex_char hexAlphabet);
      [apply is_hex_char_alphabet |].
Qed.

Lemma isSlot_spec (s : string) :
  isSlot s = true <-> s <> "" /\ over decimalAlphabet s.
Proof.
  rewrite <- (string_forall_over is_digit decimalAlphabet s)
    by apply is_digit_alphabet.
  destruct s; cbn [isSlot]; [| by intuition].
  split; [done | by intros [[] _]].
Qed.

Lemma isKnownIdentifier_spec (s : string) :
  isKnownIdentifier s = true
  <-> s = "genesis" \/ s = "finalized" \/ s = "head".
Proof.
  unfold isKnownIdentifier, knownIdentifiers.
  rewrite bool_decide_eq_true, !elem_of_cons, elem_of_nil. tauto.
Qed.

(* No string falls under two rules. *)
Lemma isSlot_not_isHash (s : string) : isSlot s = true -> isHash s = false.
Proof.
  destruct s as [| c0 [| c1 digits]]; [done | done |]. cbn.
  intros H. apply andb_true_iff in H as [_ H].
  apply andb_true_iff in H as [H _].
  destruct (Ascii.eqb_spec c1 "x") as [-> | _]; [discriminate |].
  by rewrite andb_false_r.
Qed.

Lemma isKnownIdentifier_not_other (s : string) :
  isKnownIdentifier s = true -> isHash s = false /\ isSlot s = false.
Proof.
  intros H. apply isKnownIdentifier_spec in H as [-> | [-> | ->]]; by split.
Qed.

(** C6: the resolver classifies a string as a ContentHash exactly when it is
    "0x" followed by 64 characters out of 0-9, a-f, A-F; as a Position exactly
    when it is not empty and all its characters are decimal digits; as a
    NamedAlias exactly when it is "genesis", "finalized" or "head"; and as
    invalid exactly when it is none of these.  Invalid are, among others, 64
    hexadecimal characters without the prefix (when not all of them are
    decimal digits) and "0x" followed by any other number of characters.  For
    an invalid identifier the handler answers without a call to the beacon
    node or the store. *)
Theorem C6_classification_exact (raw : string) :
  (classify raw = Some ContentHash
   <-> exists digits,
         raw = "0x" +:+ digits /\ String.length digits = 64%nat
         /\ over hexAlphabet digits)
  /\ (classify raw = Some Position
      <-> raw <> "" /\ over decimalAlphabet raw)
  /\ (classify raw = Some NamedAlias
      <-> raw = "genesis" \/ raw = "finalized" \/ raw = "head")
  /\ (classify raw = None
      <-> ~ (exists digits,
               raw = "0x" +:+ digits /\ String.length digits = 64%nat
               /\ over hexAlphabet digits)
          /\ ~ (raw <> "" /\ over decimalAlphabet raw)
          /\ ~ (raw = "genesis" \/ raw = "finalized" \/ raw = "head"))
  /\ (String.length raw = 64%nat -> over hexAlphabet raw ->
      ~ over decimalAlphabet raw -> classify raw = None)
  /\ (String.length raw <> 64%nat -> classify ("0x" +:+ raw) = None)
  /\ (classify raw = None ->
      forall (s : API) (indices : option (gset N)) (accept : option string)
             (w : World),
        blobSidecarHandler s (mkRequest raw indices accept) w
        = (mkResponse 400
             (BodyError (mkHttpError 400 ("invalid block id: " +:+ raw))), w)).
Proof.
  pose proof (isHash_spec raw) as Hh.
  pose proof (isSlot_spec raw) as Hs.
  pose proof (isKnownIdentifier_spec raw) as Hk.
  pose proof (isSlot_not_isHash raw) as Hsh.
  pose proof (isKnownIdentifier_not_other raw) as Hko.
  assert (Hnone : classify raw = None
                  <-> isHash raw = false /\ isSlot raw = false
                      /\ isKnownIdentifier raw = false).
  { unfold classify.
    destruct (isHash raw), (isSlot raw), (isKnownIdentifier raw);
      by intuition. }
  split; [| split; [| split; [| split; [| split; [| split]]]]].
  - rewrite <- Hh. unfold classify.
    destruct (isHash raw), (isSlot raw), (isKnownIdentifier raw);
      by intuition.
  - rewrite <- Hs. unfold classify.
    destruct (isHash raw), (isSlot raw), (isKnownIdentifier raw);
      by intuition.
  - rewrite <- Hk. unfold classify.
    destruct (isHash raw), (isSlot raw), (isKnownIdentifier raw);
      by intuition.
  - rewrite Hnone, <- Hh, <- Hs, <- Hk.
    destruct (isHash raw), (isSlot raw), (isKnownIdentifier raw);
      by intuition.
  - intros Hlen Hhex Hdec. apply Hnone.
    assert (Hslot : isSlot raw = false).
    { destruct (isSlot raw) eqn:E; [| done].
      by destruct Hdec; apply Hs. }
    split; [| split; [done |]].
    + destruct (isHash raw) eqn:E; [| done].
      destruct (proj1 Hh eq_refl) as (digits & -> & Hlen' & _).
      change (String.length ("0x" +:+ digits))
        with (S (S (String.length digits))) in Hlen. lia.
    + destruct (isKnownIdentifier raw) eqn:E; [| done].
      destruct (proj1 Hk eq_refl) as [-> | [-> | ->]]; discriminate.
  - intros Hlen. unfold classify.
    change (isHash ("0x" +:+ raw))
      with (Ascii.eqb "0" "0" && Ascii.eqb "x" "x"
            && (String.length raw =? 64)%nat
            && string_forall is_hex_char raw).
    apply Nat.eqb_neq in Hlen. rewrite Hlen, andb_false_r. cbn [andb].
    assert (isSlot ("0x" +:+ raw) = false) as -> by reflexivity.
    destruct (isKnownIdentifier ("0x" +:+ raw)) eqn:E; [| done].
    apply isKnownIdentifier_spec in E as [E | [E | E]]; discriminate.
  - intros Hc s indices accept w.
    unfold blobSidecarHandler, resolveBlockHash, bind, ret.
    cbn [id]. by rewrite Hc.
Qed.

Lemma C6_classification_exact_witness :
  classify "1234567890abcdef1234567890abcdef1234567890abcdef1234567890abcdef"
  = None
  /\ classify "0x1234567890abcdef123" = None
  /\ blobSidecarHandler (mkAPI deadNode alwaysUp)
       (mkRequest "foobar" None None) emptyWorld
     = (mkResponse 400
          (BodyError (mkHttpError 400 "invalid block id: foobar")), emptyWorld).
Proof.
  split; [| split].
  - apply (C6_classification_exact
             "1234567890abcdef1234567890abcdef1234567890abcdef1234567890abcdef").
    + reflexivity.
    + by apply (string_forall_over is_hex_char hexAlphabet);
        [apply is_hex_char_alphabet |].
    + intros H.
      by apply (string_forall_over is_digit decimalAlphabet) in H;
        [| apply is_digit_alphabet].
  - apply (C6_classification_exact "1234567890abcdef123"). discriminate.
  - apply (C6_classification_exact "foobar"). reflexivity.
Defined.

(* --------------------------------------------------------------------- *)
(* C7 and C8                                                               *)
(* --------------------------------------------------------------------- *)

Ltac run_handler :=
  unfold blobSidecarHandler, resolveBlockHash, fetchHeader, Read, call, bind,
    ret;
  cbn [id indices Accept tick store trace fst snd].

Lemma classify_ContentHash (raw : string) :
  classify raw = Some ContentHash <-> isHash raw = true.
Proof.
  unfold classify.
  destruct (isHash raw), (isSlot raw), (isKnownIdentifier raw); by intuition.
Qed.

(** C7, the claim as it stands, fails for content hashes: the handler does not
    send a content hash to the beacon node.  With the node of the handler's
    test, which has no header under any hash, the record stored under a hash
    is served with status 200 when it is asked for by that hash, although the
    node cannot resolve the identifier. *)
Lemma C7_unresolved_hash_is_served :
  classify (Root_String 9) = Some ContentHash
  /\ (forall t, client.BeaconBlockHeader (api_beaconClient smallAPI) t
                  (Root_String 9) = Err "block not found")
  /\ fst (blobSidecarHandler smallAPI (mkRequest (Root_String 9) None None)
            (worldWith [9%N]))
     = mkResponse 200 (BodyBlobs FormatJSON twoBlobs)
  /\ ~ (forall (s : API) (r : Request) (w : World) (e : error),
          classify (id r) <> None ->
          client.BeaconBlockHeader (api_beaconClient s) (tick w) (id r)
            = Err e ->
          fst (blobSidecarHandler s r w)
          = mkResponse 404 (BodyError (mkHttpError 404 "Block not found"))).
Proof.
  split; [by vm_compute |]. split; [intros t; by vm_compute |].
  split; [by vm_compute |].
  intros H.
  specialize (H smallAPI (mkRequest (Root_String 9) None None)
                (worldWith [9%N]) "block not found").
  assert (Hr : fst (blobSidecarHandler smallAPI
                      (mkRequest (Root_String 9) None None) (worldWith [9%N]))
               = mkResponse 200 (BodyBlobs FormatJSON twoBlobs))
    by (by vm_compute).
  rewrite Hr in H. discriminate H; by vm_compute.
Qed.

(** C7, amended: for a malformed block identifier the handler answers 400
    with the message "invalid block id: " followed by the raw input, and the
    world is as before: neither the beacon node nor the store was called.  A
    position or a named alias that the beacon node does not resolve is
    answered 404 "Block not found", and so is one it resolves to a header
    whose root has no record in the store.  A content hash is not sent to the
    node: the store is read under the hash itself, and the answer is 404
    "Block not found" when it has no record there. *)
Theorem C7_handler_errors (s : API) (r : Request) (w : World) :
  (classify (id r) = None ->
   blobSidecarHandler s r w
   = (mkResponse 400
        (BodyError (mkHttpError 400 ("invalid block id: " +:+ id r))), w))
  /\
  (forall e : error,
     classify (id r) = Some Position \/ classify (id r) = Some NamedAlias ->
     client.BeaconBlockHeader (api_beaconClient s) (tick w) (id r) = Err e ->
     fst (blobSidecarHandler s r w)
     = mkResponse 404 (BodyError (mkHttpError 404 "Block not found")))
  /\
  (forall header : BeaconBlockHeader,
     classify (id r) = Some Position \/ classify (id r) = Some NamedAlias ->
     client.BeaconBlockHeader (api_beaconClient s) (tick w) (id r)
       = Ok header ->
     Unavailable (api_dataStoreClient s) (S (tick w)) = None ->
     store w !! Root header = None ->
     fst (blobSidecarHandler s r w)
     = mkResponse 404 (BodyError (mkHttpError 404 "Block not found")))
  /\
  (classify (id r) = Some ContentHash ->
   Unavailable (api_dataStoreClient s) (tick w) = None ->
   store w !! HexToHash (id r) = None ->
   fst (blobSidecarHandler s r w)
   = mkResponse 404 (BodyError (mkHttpError 404 "Block not found"))
   /\ trace (snd (blobSidecarHandler s r w))
      = trace w ++ [EvRead (HexToHash (id r))]).
Proof.
  split; [| split; [| split]].
  - intros Hc. run_handler. by rewrite Hc.
  - intros e Hc He. run_handler.
    destruct Hc as [-> | ->]; by rewrite He.
  - intros header Hc Hh Hup Hnone. run_handler.
    destruct Hc as [-> | ->]; rewrite Hh; cbn [tick store trace];
      by rewrite Hup, Hnone.
  - intros Hc Hup Hnone. run_handler. rewrite Hc.
    cbn [tick store trace]. by rewrite Hup, Hnone.
Qed.

Lemma C7_handler_errors_witness :
  blobSidecarHandler smallAPI
    (mkRequest
       "1234567890abcdef1234567890abcdef1234567890abcdef1234567890abcdef"
       None None) emptyWorld
  = (mkResponse 400
       (BodyError
          (mkHttpError 400
             "invalid block id: 1234567890abcdef1234567890abcdef1234567890abcdef1234567890abcdef")),
     emptyWorld)
  /\ fst (blobSidecarHandler smallAPI (mkRequest "99" None None)
            (worldWith [9%N]))
     = mkResponse 404 (BodyError (mkHttpError 404 "Block not found"))
  /\ fst (blobSidecarHandler smallAPI (mkRequest "head" None None)
            (worldWith [9%N]))
     = mkResponse 404 (BodyError (mkHttpError 404 "Block not found"))
  /\ fst (blobSidecarHandler smallAPI
            (mkRequest
               "0x1234567890abcdef1234567890abcdef1234567890abcdef1234567890abc111"
               None None) (worldWith [9%N]))
     = mkResponse 404 (BodyError (mkHttpError 404 "Block not found")).
Proof.
  split; [| split; [| split]].
  - apply (C7_handler_errors smallAPI
             (mkRequest
                "1234567890abcdef1234567890abcdef1234567890abcdef1234567890abcdef"
                None None) emptyWorld).
    by vm_compute.
  - apply (C7_handler_errors smallAPI (mkRequest "99" None None)
             (worldWith [9%N])) with (e := "block not found");
      [left; by vm_compute | by vm_compute].
  - apply (C7_handler_errors smallAPI (mkRequest "head" None None)
             (worldWith [9%N])) with (header := blockNo 10);
      [right; by vm_compute | by vm_compute | by vm_compute | by vm_compute].
  - apply (C7_handler_errors smallAPI
             (mkRequest
                "0x1234567890abcdef1234567890abcdef1234567890abcdef1234567890abc111"
                None None) (worldWith [9%N]));
      by vm_compute.
Defined.

Lemma filterBlobs_filter (blobs : list BlobSidecar) (requested : gset N) :
  filterBlobs blobs requested
  = filter (fun blob => Index blob ∈ requested) blobs.
Proof.
  induction blobs as [| blob rest IH]; [done |]. cbn [filterBlobs].
  rewrite filter_cons. case_bool_decide; case_decide; try done.
  by rewrite IH.
Qed.

Lemma filterBlobs_none (blobs : list BlobSidecar) (requested : gset N) :
  (forall blob, blob ∈ blobs -> Index blob ∉ requested) ->
  filterBlobs blobs requested = [].
Proof.
  induction blobs as [| blob rest IH]; intros Hnone; [done |].
  cbn [filterBlobs]. case_bool_decide as Hin.
  - destruct (Hnone blob); [apply list_elem_of_here | done].
  - apply IH. intros b Hb. apply Hnone. by apply list_elem_of_further.
Qed.

(* What filterBlobs keeps. *)
Lemma filterBlobs_exact (data : list BlobSidecar) (requested : gset N) :
  (forall blob,
     blob ∈ filterBlobs data requested
     <-> blob ∈ data /\ Index blob ∈ requested)
  /\ sublist (filterBlobs data requested) data
  /\ filterBlobs data requested
     = filter (fun blob => Index blob ∈ requested) data
  /\ ((forall blob, blob ∈ data -> Index blob ∉ requested) ->
      filterBlobs data requested = []).
Proof.
  split; [| split; [| split]].
  - intros blob. rewrite filterBlobs_filter, list_elem_of_filter. tauto.
  - rewrite filterBlobs_filter. apply sublist_filter.
  - apply filterBlobs_filter.
  - apply filterBlobs_none.
Qed.

(** C8: for a record in the store and a set of requested indices, the handler
    answers 200 with the entries of the record whose index is requested: an
    entry is in the answer exactly when it is in the record and its index is
    in the set, and the answer is a sublist of the record's data, so the order
    is kept.  An index with no entry adds nothing, and when no entry has a
    requested index the answer is the empty list, still with status 200.
    This holds for a record asked for by its content hash, which is read from
    the store under that hash without a call to the beacon node, and for a
    record asked for by a position or a named alias that the node resolves to
    a header with the record's hash as its root. *)
Theorem C8_indices_filter (s : API) (r : Request) (w : World)
  (data : list BlobSidecar) (requested : gset N) :
  indices r = Some requested ->
  (classify (id r) = Some ContentHash ->
   Unavailable (api_dataStoreClient s) (tick w) = None ->
   store w !! HexToHash (id r) = Some data ->
   exists answer : list BlobSidecar,
     fst (blobSidecarHandler s r w)
     = mkResponse 200 (BodyBlobs (negotiate (Accept r)) answer)
     /\ trace (snd (blobSidecarHandler s r w))
        = trace w ++ [EvRead (HexToHash (id r))]
     /\ (forall blob, blob ∈ answer <-> blob ∈ data /\ Index blob ∈ requested)
     /\ sublist answer data
     /\ answer = filter (fun blob => Index blob ∈ requested) data
     /\ ((forall blob, blob ∈ data -> Index blob ∉ requested) -> answer = []))
  /\
  (forall header : BeaconBlockHeader,
     classify (id r) = Some Position \/ classify (id r) = Some NamedAlias ->
     client.BeaconBlockHeader (api_beaconClient s) (tick w) (id r)
       = Ok header ->
     Unavailable (api_dataStoreClient s) (S (tick w)) = None ->
     store w !! Root header = Some data ->
     exists answer : list BlobSidecar,
       fst (blobSidecarHandler s r w)
       = mkResponse 200 (BodyBlobs (negotiate (Accept r)) answer)
       /\ (forall blob,
             blob ∈ answer <-> blob ∈ data /\ Index blob ∈ requested)
       /\ sublist answer data
       /\ answer = filter (fun blob => Index blob ∈ requested) data
       /\ ((forall blob, blob ∈ data -> Index blob ∉ requested) ->
           answer = [])).
Proof.
  intros Hind.
  destruct (filterBlobs_exact data requested) as (Hmem & Hsub & Hfil & Hnone).
  split.
  - intros Hc Hup Hdata. exists (filterBlobs data requested).
    split; [| split; [| done]].
    + run_handler. rewrite Hc. cbn [tick store trace].
      rewrite Hup, Hdata. cbn. by rewrite Hind.
    + run_handler. rewrite Hc. cbn [tick store trace].
      by rewrite Hup, Hdata.
  - intros header Hc Hh Hup Hdata. exists (filterBlobs data requested).
    split; [| done].
    run_handler. destruct Hc as [-> | ->]; rewrite Hh; cbn [tick store trace];
      rewrite Hup, Hdata; cbn; by rewrite Hind.
Qed.

Lemma C8_indices_filter_witness :
  fst (blobSidecarHandler smallAPI (mkRequest "1234" (Some {[1%N]}) None)
         (worldWith [9%N]))
  = mkResponse 200 (BodyBlobs FormatJSON [mkSidecar 1 [2%N]])
  /\ fst (blobSidecarHandler smallAPI
            (mkRequest "1234" (Some {[3%N]}) (Some "application/octet-stream"))
            (worldWith [9%N]))
     = mkResponse 200 (BodyBlobs FormatSSZ [])
  /\ fst (blobSidecarHandler smallAPI
            (mkRequest (Root_String 9) (Some {[1%N]}) None) (worldWith [9%N]))
     = mkResponse 200 (BodyBlobs FormatJSON [mkSidecar 1 [2%N]]).
Proof.
  split; [| split].
  - destruct (C8_indices_filter smallAPI (mkRequest "1234" (Some {[1%N]}) None)
                (worldWith [9%N]) twoBlobs {[1%N]} eq_refl) as [_ Hslot].
    destruct (Hslot (blockNo 9)) as (answer & -> & _ & _ & -> & _);
      [left; by vm_compute | by vm_compute | by vm_compute | by vm_compute |].
    by vm_compute.
  - destruct (C8_indices_filter smallAPI
                (mkRequest "1234" (Some {[3%N]})
                   (Some "application/octet-stream"))
                (worldWith [9%N]) twoBlobs {[3%N]} eq_refl) as [_ Hslot].
    destruct (Hslot (blockNo 9)) as (answer & -> & _ & _ & -> & _);
      [left; by vm_compute | by vm_compute | by vm_compute | by vm_compute |].
    by vm_compute.
  - destruct (C8_indices_filter smallAPI
                (mkRequest (Root_String 9) (Some {[1%N]}) None)
                (worldWith [9%N]) twoBlobs {[1%N]} eq_refl) as [Hhash _].
    destruct Hhash as (answer & -> & _ & _ & _ & -> & _);
      [by vm_compute | by vm_compute | by vm_compute |].
    by vm_compute.
Defined.

(* --------------------------------------------------------------------- *)
(* persistBlobsForBlockToS3: what holds of every call                      *)
(* --------------------------------------------------------------------- *)

(** persistBlobsForBlockToS3 tries once: whatever the node and the store
    answer, one call asks for the header of its block once, asks for blob
    sidecars at most once, writes at most once, and never sleeps. *)
Theorem persist_single_attempt (a : ArchiverService) (block : string)
  (w : World) :
  exists evs,
    trace (snd (persistBlobsForBlockToS3 a block w)) = trace w ++ evs
    /\ headerCalls evs = [block]
    /\ List.length (blobCalls evs) <= 1
    /\ List.length (writes evs) <= 1
    /\ sleeps evs = [].
Proof.
  run.
  destruct (client.BeaconBlockHeader _ _ _) as [h | e]; flat_trace;
    [| eexists; split; [done |]; cbn; repeat split; lia].
  destruct (Unavailable _ _) as [e |]; flat_trace;
    [eexists; split; [done |]; cbn; repeat split; lia |].
  case_bool_decide; flat_trace;
    [eexists; split; [done |]; cbn; repeat split; lia |].
  destruct (client.BlobSidecars _ _ _) as [bs | e]; flat_trace;
    [| eexists; split; [done |]; cbn; repeat split; lia].
  destruct (Unavailable _ _) as [e |]; flat_trace;
    eexists; (split; [done |]); cbn; repeat split; lia.
Qed.

(* The outcomes of persistBlobsForBlockToS3 and the store after each. *)
Lemma persist_store (a : ArchiverService) (block : string) (w : World) :
  match persistBlobsForBlockToS3 a block w with
  | (Err _, w') => store w' = store w
  | (Ok (h, true), w') => store w' = store w /\ is_Some (store w !! Root h)
  | (Ok (h, false), w') =>
      store w !! Root h = None
      /\ exists bs, store w' = <[Root h := bs]> (store w)
                    /\ writes (trace w')
                       = writes (trace w) ++ [mkBlobData (Root h) bs]
  end.
Proof.
  run.
  destruct (client.BeaconBlockHeader _ _ _) as [h | e]; flat_trace; [| done].
  destruct (Unavailable _ _) as [e |]; flat_trace; [done |].
  case_bool_decide as Hin; flat_trace; [done |].
  destruct (client.BlobSidecars _ _ _) as [bs | e]; flat_trace; [| done].
  destruct (Unavailable _ _) as [e |]; flat_trace; [done |].
  split; [by apply eq_None_not_Some |]. exists bs. split; [done |].
  rewrite writes_app. cbn. done.
Qed.

Lemma persist_store_subseteq (a : ArchiverService) (block : string)
  (w : World) :
  store w ⊆ store (snd (persistBlobsForBlockToS3 a block w)).
Proof.
  pose proof (persist_store a block w) as H.
  destruct (persistBlobsForBlockToS3 a block w) as [[[h [|]] | e] w1];
    cbn [snd].
  - destruct H as [Hs _]. by rewrite Hs.
  - destruct H as (Hnone & bs & Hs & _). rewrite Hs. by apply insert_subseteq.
  - by rewrite H.
Qed.

(** A call of persistBlobsForBlockToS3 that returns an error leaves the store
    as it was, and so does one that finds the block stored; a call that stores
    a block adds a record under a hash that had none.  So no call ever
    replaces or removes a record: the store before is part of the store
    after. *)
Theorem persist_store_grows (a : ArchiverService) (block : string) (w : World) :
  store w ⊆ store (snd (persistBlobsForBlockToS3 a block w))
  /\ (forall e w', persistBlobsForBlockToS3 a block w = (Err e, w') ->
        store w' = store w)
  /\ (forall h w', persistBlobsForBlockToS3 a block w = (Ok (h, true), w') ->
        store w' = store w)
  /\ (forall h w', persistBlobsForBlockToS3 a block w = (Ok (h, false), w') ->
        store w !! Root h = None /\ is_Some (store w' !! Root h)).
Proof.
  pose proof (persist_store a block w) as H.
  destruct (persistBlobsForBlockToS3 a block w) as [[[h [|]] | e] w1];
    cbn [snd].
  - destruct H as [Hs _]. split; [| split; [| split]].
    + by rewrite Hs.
    + done.
    + by intros ? ? [= <- <-].
    + done.
  - destruct H as (Hnone & bs & Hs & _). split; [| split; [| split]].
    + rewrite Hs. by apply insert_subseteq.
    + done.
    + done.
    + intros ? ? [= <- <-]. by rewrite Hs, lookup_insert_eq.
  - split; [| split; [| split]].
    + by rewrite H.
    + by intros ? ? [= <- <-].
    + done.
    + done.
Qed.

Lemma persist_store_grows_witness :
  store (snd (persistBlobsForBlockToS3 deadArchiver "head" (worldWith [9%N])))
  = store (worldWith [9%N])
  /\ is_Some (store (snd (persistBlobsForBlockToS3 (smallArchiver 7) "head"
                            (worldWith [9%N]))) !! 10%N).
Proof.
  split.
  - destruct (persist_store_grows deadArchiver "head" (worldWith [9%N]))
      as (_ & Herr & _).
    apply (Herr "block not found"). reflexivity.
  - destruct (persist_store_grows (smallArchiver 7) "head" (worldWith [9%N]))
      as (_ & _ & _ & Hnew).
    apply (Hnew (blockNo 10)). reflexivity.
Defined.

(** The Exists gate makes persisting idempotent: once a call of
    persistBlobsForBlockToS3 has returned a header without error, a later
    call that is answered with a header of the same root (the store being
    reachable) returns alreadyExisted = true, makes no blob request and no
    write, and leaves the store as it is. *)
Theorem persist_again_is_known (a : ArchiverService) (block block' : string)
  (w w1 : World) (h h' : BeaconBlockHeader) (existed : bool) :
  persistBlobsForBlockToS3 a block w = (Ok (h, existed), w1) ->
  client.BeaconBlockHeader (beaconClient a) (tick w1) block' = Ok h' ->
  Root h' = Root h ->
  Unavailable (dataStoreClient a) (S (tick w1)) = None ->
  exists w2,
    persistBlobsForBlockToS3 a block' w1 = (Ok (h', true), w2)
    /\ store w2 = store w1
    /\ writes (trace w2) = writes (trace w1)
    /\ blobCalls (trace w2) = blobCalls (trace w1).
Proof.
  intros Hp Hh Hroot Hup.
  assert (Hin : is_Some (store w1 !! Root h')).
  { rewrite Hroot. pose proof (persist_store a block w) as H.
    rewrite Hp in H. destruct existed.
    - destruct H as [-> H]. done.
    - destruct H as (_ & bs & -> & _). by rewrite lookup_insert_eq. }
  exists (afterKnown block' h' w1).
  split; [by apply persist_known |]. split; [done |].
  unfold writes, blobCalls. cbn. rewrite !omap_app. cbn.
  by rewrite !app_nil_r.
Qed.

Lemma persist_again_is_known_witness :
  exists w2,
    persistBlobsForBlockToS3 (smallArchiver 7) (Root_String 10)
      (snd (persistBlobsForBlockToS3 (smallArchiver 7) "head" emptyWorld))
    = (Ok (blockNo 10, true), w2)
    /\ writes (trace w2) = [mkBlobData 10 twoBlobs].
Proof.
  destruct (persist_again_is_known (smallArchiver 7) "head" (Root_String 10)
              emptyWorld
              (snd (persistBlobsForBlockToS3 (smallArchiver 7) "head"
                      emptyWorld))
              (blockNo 10) (blockNo 10) false)
    as (w2 & Hp & _ & Hw & _); try reflexivity.
  exists w2. split; [exact Hp |]. by rewrite Hw.
Defined.

(* --------------------------------------------------------------------- *)
(* What every run of the service keeps                                     *)
(* --------------------------------------------------------------------- *)

Lemma iterate_rel {St R : Type} (body : St -> M (LoopStep St R))
  (P : World -> World -> Prop) :
  (forall w, P w w) ->
  (forall w1 w2 w3, P w1 w2 -> P w2 w3 -> P w1 w3) ->
  (forall s w, P w (snd (body s w))) ->
  forall fuel s w, P w (snd (iterate body fuel s w)).
Proof.
  intros Hrefl Htrans Hbody. induction fuel as [| fuel IH]; intros s w.
  - apply Hrefl.
  - rewrite iterate_S. pose proof (Hbody s w) as Hb.
    destruct (body s w) as [[s' | r] w1]; cbn [snd] in *; [| done].
    eapply Htrans; [exact Hb | apply IH].
Qed.

Lemma Start_metrics_failed (a : ArchiverService) (fuel : nat)
  (turns : list Turn) (w : World) (e : error) :
  MetricsEnabled (cfg a) = true ->
  metricsServer a = Err e ->
  Start a fuel turns w
  = (Returned (Some e),
     withEvents [EvLog LvlInfo "starting metrics server"] w).
Proof. intros Hm He. unfold Start. by rewrite Hm, He. Qed.

(* A relation between the world before and the world after that holds across
   one call of persistBlobsForBlockToS3 and across any log line, metric or
   sleep holds across every run of the loops and of Start. *)
Section Kept.
Variable a : ArchiverService.
Variable P : World -> World -> Prop.
Hypothesis P_refl : forall w, P w w.
Hypothesis P_trans : forall w1 w2 w3, P w1 w2 -> P w2 w3 -> P w1 w3.
Hypothesis P_notes :
  forall evs w, Forall (fun e => isCall e = false) evs -> P w (withEvents evs w).
Hypothesis P_persist :
  forall block w, P w (snd (persistBlobsForBlockToS3 a block w)).

Lemma kept_backfill_body (st : BeaconBlockHeader * bool) (w : World) :
  P w (snd (backfillBlobs_body a st w)).
Proof.
  destruct st as [cur [|]].
  { rewrite backfill_body_done. apply P_notes. by repeat constructor. }
  destruct (decide (Root cur = OriginBlock (cfg a))) as [Ho | Ho].
  { rewrite backfill_body_origin by done. apply P_notes.
    by repeat constructor. }
  pose proof (P_persist (Root_String (ParentRoot cur)) w) as Hp.
  destruct (persistBlobsForBlockToS3 a (Root_String (ParentRoot cur)) w)
    as [[[h [|]] | e] w1] eqn:E; cbn [snd] in Hp.
  - by rewrite (backfill_body_known a cur w h w1 Ho E).
  - rewrite (backfill_body_new a cur w h w1 Ho E). cbn [snd].
    eapply P_trans; [exact Hp |]. apply P_notes. by repeat constructor.
  - rewrite (backfill_body_err a cur w e w1 Ho E). cbn [snd].
    eapply P_trans; [exact Hp |]. apply P_notes. by repeat constructor.
Qed.

Lemma kept_poll_body (st : option BeaconBlockHeader * string) (w : World) :
  P w (snd (processBlocksUntilKnownBlock_body a st w)).
Proof.
  destruct st as [start block].
  pose proof (P_persist block w) as Hp.
  destruct (persistBlobsForBlockToS3 a block w) as [[[h [|]] | e] w1] eqn:E;
    cbn [snd] in Hp.
  - rewrite (poll_body_known a start block w h w1 E). cbn [snd].
    eapply P_trans; [exact Hp |]. apply P_notes. by repeat constructor.
  - rewrite (poll_body_new a start block w h w1 E). cbn [snd].
    eapply P_trans; [exact Hp |]. apply P_notes. by repeat constructor.
  - rewrite (poll_body_err a start block w e w1 E). cbn [snd].
    eapply P_trans; [exact Hp |]. apply P_notes. by repeat constructor.
Qed.

Lemma kept_backfill (latest : BeaconBlockHeader) (fuel : nat) (w : World) :
  P w (snd (backfillBlobs a latest fuel w)).
Proof.
  unfold backfillBlobs.
  apply (iterate_rel (backfillBlobs_body a) P); auto using kept_backfill_body.
Qed.

Lemma kept_poll (fuel : nat) (w : World) :
  P w (snd (processBlocksUntilKnownBlock a fuel w)).
Proof.
  rewrite poll_unfold. eapply P_trans.
  - apply (P_notes [EvLog LvlDebug "refreshing live data"]).
    by repeat constructor.
  - apply (iterate_rel (processBlocksUntilKnownBlock_body a) P);
      auto using kept_poll_body.
Qed.

Lemma kept_track (fuel : nat) (turns : list Turn) :
  forall (bf : option (BeaconBlockHeader * bool)) (w : World),
    P w (snd (trackLatestBlocks a fuel bf turns w)).
Proof.
  induction turns as [| turn rest IH]; intros bf w; [apply P_refl |].
  destruct turn as [| [| |]]; cbn [trackLatestBlocks]; try apply P_refl.
  - destruct bf as [st |]; [| apply IH].
    unfold bind at 1. pose proof (kept_backfill_body st w) as Hb.
    destruct (backfillBlobs_body a st w) as [[st' | r] w1]; cbn [snd] in Hb;
      (eapply P_trans; [exact Hb | apply IH]).
  - unfold bind at 1. pose proof (kept_poll fuel w) as Hp.
    destruct (processBlocksUntilKnownBlock a fuel w) as [[exit |] w1];
      cbn [snd] in Hp; [| done].
    eapply P_trans; [exact Hp | apply IH].
Qed.

Lemma kept_Start (fuel : nat) (turns : list Turn) (w : World) :
  P w (snd (Start a fuel turns w)).
Proof.
  assert (Hsw : P w (startWorld a w)).
  { unfold startWorld. destruct (MetricsEnabled (cfg a)); [| apply P_refl].
    apply P_notes. by repeat constructor. }
  destruct (MetricsEnabled (cfg a)) eqn:Hm.
  - destruct (metricsServer a) as [[] | e] eqn:Hs.
    + pose proof (P_persist "head" (startWorld a w)) as Hp.
      destruct (persistBlobsForBlockToS3 a "head" (startWorld a w))
        as [[[h ex] | e] w1] eqn:E; cbn [snd] in Hp.
      * rewrite (Start_seeded a fuel turns w h ex w1) by done.
        eapply P_trans; [exact Hsw |]. eapply P_trans; [exact Hp |].
        apply kept_track.
      * rewrite (Start_seed_failed a fuel turns w e w1) by done. cbn [snd].
        eapply P_trans; [exact Hsw |]. eapply P_trans; [exact Hp |].
        apply P_notes. by repeat constructor.
    + rewrite (Start_metrics_failed a fuel turns w e) by done.
      apply P_notes. by repeat constructor.
  - pose proof (P_persist "head" (startWorld a w)) as Hp.
    destruct (persistBlobsForBlockToS3 a "head" (startWorld a w))
      as [[[h ex] | e] w1] eqn:E; cbn [snd] in Hp.
    + rewrite (Start_seeded a fuel turns w h ex w1); [| by rewrite Hm | done].
      eapply P_trans; [exact Hsw |]. eapply P_trans; [exact Hp |].
      apply kept_track.
    + rewrite (Start_seed_failed a fuel turns w e w1);
        [| by rewrite Hm | done]. cbn [snd].
      eapply P_trans; [exact Hsw |]. eapply P_trans; [exact Hp |].
      apply P_notes. by repeat constructor.
Qed.
End Kept.

(** With every call of persistBlobsForBlockToS3 running undisturbed by the
    other loop (a schedule takes whole turns of the backfill loop and whole
    polls), a run of Start keeps every record that was in the store before it,
    with the data it had, whatever the node and the store answer and in
    whatever order the turns and the polls come: the store before is part of
    the store after. *)
Theorem Start_store_grows (a : ArchiverService) (fuel : nat)
  (turns : list Turn) (w : World) :
  store w ⊆ store (snd (Start a fuel turns w)).
Proof.
  apply (kept_Start a (fun w w' => store w ⊆ store w')).
  - done.
  - intros w1 w2 w3 H12 H23. by etrans.
  - done.
  - intros block w0. apply persist_store_subseteq.
Qed.

(* With the store reachable, a call of persistBlobsForBlockToS3 writes nothing,
   or writes one record under a hash that had none. *)
Lemma persist_writes_up (a : ArchiverService) (block : string) (w : World) :
  storeUp (dataStoreClient a) ->
  let w' := snd (persistBlobsForBlockToS3 a block w) in
  (store w' = store w /\ writes (trace w') = writes (trace w))
  \/ (exists h bs,
        store w !! Root h = None
        /\ store w' = <[Root h := bs]> (store w)
        /\ writes (trace w') = writes (trace w) ++ [mkBlobData (Root h) bs]).
Proof.
  intros Hup. run.
  destruct (client.BeaconBlockHeader _ _ _) as [h | e]; flat_trace.
  2:{ left. split; [done |]. rewrite writes_app. cbn. by rewrite app_nil_r. }
  rewrite Hup. case_bool_decide as Hin; flat_trace.
  { left. split; [done |]. rewrite writes_app. cbn. by rewrite app_nil_r. }
  destruct (client.BlobSidecars _ _ _) as [bs | e]; flat_trace.
  2:{ left. split; [done |]. rewrite writes_app. cbn. by rewrite app_nil_r. }
  rewrite Hup. flat_trace. right. exists h, bs.
  split; [by apply eq_None_not_Some |]. split; [done |].
  by rewrite writes_app.
Qed.

Lemma writtenOnce_notes (evs : list Event) (w : World) :
  Forall (fun e => isCall e = false) evs ->
  writtenOnce w -> writtenOnce (withEvents evs w).
Proof.
  intros Hq. unfold writtenOnce, writtenHashes. cbn [withEvents trace store].
  rewrite writes_app.
  assert (writes evs = []) as ->; [| by rewrite app_nil_r].
  induction Hq as [| e evs He _ IH]; [done |].
  unfold writes in *. cbn. destruct e; try done.
Qed.

Lemma writtenOnce_persist (a : ArchiverService) (block : string) (w : World) :
  storeUp (dataStoreClient a) ->
  writtenOnce w -> writtenOnce (snd (persistBlobsForBlockToS3 a block w)).
Proof.
  intros Hup [Hnd Hst].
  destruct (persist_writes_up a block w Hup)
    as [[Hs Hw] | (h & bs & Hnone & Hs & Hw)];
    unfold writtenOnce, writtenHashes; rewrite Hs, Hw; [done |].
  split.
  - rewrite fmap_app. cbn. apply NoDup_app. split; [done |].
    split; [| apply NoDup_singleton].
    intros r Hr Hr'. apply list_elem_of_singleton in Hr'. subst r.
    apply list_elem_of_fmap in Hr as (d & Hd & Hin).
    apply Hst in Hin. rewrite <- Hd, Hnone in Hin. discriminate.
  - intros d Hd. apply elem_of_app in Hd as [Hd | Hd].
    + rewrite lookup_insert_ne; [by apply Hst |].
      intros Heq. apply Hst in Hd. rewrite <- Heq, Hnone in Hd. discriminate.
    + apply list_elem_of_singleton in Hd. subst d. cbn.
      by rewrite lookup_insert_eq.
Qed.

(** With a store that is reachable, and with every call of
    persistBlobsForBlockToS3 running undisturbed, a run of Start that begins
    with an empty trace writes no block hash twice, however the node answers
    and however backfill and polls are scheduled; and the store ends up
    holding, under each written hash, the data written. *)
Theorem Start_writes_each_block_once (a : ArchiverService) (fuel : nat)
  (turns : list Turn) (w : World) :
  storeUp (dataStoreClient a) ->
  trace w = [] ->
  let w' := snd (Start a fuel turns w) in
  NoDup (writtenHashes (trace w'))
  /\ forall d, d ∈ writes (trace w') ->
               store w' !! BeaconBlockHash d = Some (Data d).
Proof.
  intros Hup Hempty.
  apply (kept_Start a (fun w w' => writtenOnce w -> writtenOnce w')).
  - done.
  - intros w1 w2 w3 H12 H23 H1. by apply H23, H12.
  - intros evs w0 Hq. by apply writtenOnce_notes.
  - intros block w0. by apply writtenOnce_persist.
  - unfold writtenOnce, writtenHashes. rewrite Hempty. cbn.
    split; [apply NoDup_nil_2 | by intros d Hd%elem_of_nil].
Qed.

Lemma Start_writes_each_block_once_witness :
  NoDup (writtenHashes (trace (snd (Start (smallArchiver 8) 5
           [TurnBackfill; TurnSelect TickC; TurnBackfill; TurnSelect TickC]
           emptyWorld))))
  /\ writtenHashes (trace (snd (Start (smallArchiver 8) 5
           [TurnBackfill; TurnSelect TickC; TurnBackfill; TurnSelect TickC]
           emptyWorld))) = [10%N; 9%N; 8%N].
Proof.
  split; [| reflexivity].
  apply (Start_writes_each_block_once (smallArchiver 8) 5
           [TurnBackfill; TurnSelect TickC; TurnBackfill; TurnSelect TickC]
           emptyWorld); [intros t |]; reflexivity.
Defined.

(* --------------------------------------------------------------------- *)
(* Stop and Stopped                                                        *)
(* --------------------------------------------------------------------- *)

(** Stop takes effect once.  On a service whose stopCh is closed exactly when
    stopped is set (as after NewService), a call of Stop does not panic and
    leaves Stopped() true, also when it returns the error of the metrics
    server; and every later call returns ErrAlreadyStopped, changes no field,
    logs nothing, and does not ask the metrics server to stop again. *)
Theorem Stop_takes_effect_once (l : Lifecycle) (first second : option error)
  (w : World) :
  stopChClosed l = stopped l ->
  let r1 := Stop first l w in
  let l1 := snd (fst r1) in
  let w1 := snd r1 in
  fst (fst r1) <> Panics
  /\ Stopped l1 = true
  /\ stopChClosed l1 = stopped l1
  /\ Stop second l1 w1 = (Returns (Some ErrAlreadyStopped), l1, w1)
  /\ (stopped l = false -> metricsServerSet l = true ->
      fst (fst r1) = Returns first).
Proof.
  intros Hinv. unfold Stop, Stopped, log, emit, bind, ret.
  destruct l as [[|] closed set]; cbn in Hinv; subst closed; cbn.
  - by repeat split.
  - destruct set; cbn; [destruct first |]; by repeat split.
Qed.

Lemma Stop_takes_effect_once_witness :
  fst (fst (Stop (Some "listener closed")
              (startedLifecycle (mkService (mkConfig 7 12 true) smallChain
                                   alwaysUp (Ok tt))) emptyWorld))
  = Returns (Some "listener closed")
  /\ fst (fst (Stop None
                 (snd (fst (Stop (Some "listener closed")
                              (startedLifecycle
                                 (mkService (mkConfig 7 12 true) smallChain
                                    alwaysUp (Ok tt))) emptyWorld)))
                 emptyWorld))
     = Returns (Some ErrAlreadyStopped).
Proof.
  destruct (Stop_takes_effect_once
              (startedLifecycle (mkService (mkConfig 7 12 true) smallChain
                                   alwaysUp (Ok tt)))
              (Some "listener closed") None emptyWorld eq_refl)
    as (_ & _ & _ & Hagain & Hfirst).
  split; [by apply Hfirst | reflexivity].
Defined.

(* --------------------------------------------------------------------- *)
(* backfillBlobs: the other exit, and no exit                              *)
(* --------------------------------------------------------------------- *)

Lemma stands_Forall (Q : BeaconBlockHeader -> Prop)
  (chain : list (BeaconBlockHeader * list BlobSidecar)) :
  forall seed,
    Q seed -> (forall p, p ∈ chain -> Q (fst p)) ->
    Forall Q (stands seed chain) /\ Q (walkEnd seed chain).
Proof.
  induction chain as [| [h bs] rest IH]; intros seed Hseed Hall.
  - split; [constructor | done].
  - destruct (IH h) as [Hf He].
    + apply (Hall (h, bs)), list_elem_of_here.
    + intros p Hp. by apply Hall, list_elem_of_further.
    + split; [by constructor | by rewrite walkEnd_cons].
Qed.

(** backfillBlobs stops at the first ancestor that is stored.  When the node
    serves a run of ancestors of the seed that are not stored, none of them
    (nor the seed) the origin, and then an ancestor that is stored, and no
    call fails, backfillBlobs writes exactly the run, asks once for the stored
    ancestor, and returns with "backfill complete" and that ancestor's hash.
    It asks for nothing beyond it: blocks older than a stored block stay
    unvisited, stored or not. *)
Theorem backfill_stops_at_stored_ancestor (a : ArchiverService)
  (seed known : BeaconBlockHeader)
  (chain : list (BeaconBlockHeader * list BlobSidecar)) (w : World) :
  ancestry (beaconClient a) seed chain ->
  storeUp (dataStoreClient a) ->
  NoDup (roots chain) ->
  (forall r, r ∈ roots chain -> store w !! r = None) ->
  Root seed <> OriginBlock (cfg a) ->
  (forall r, r ∈ roots chain -> r <> OriginBlock (cfg a)) ->
  (forall t, client.BeaconBlockHeader (beaconClient a) t
               (Root_String (ParentRoot (walkEnd seed chain))) = Ok known) ->
  is_Some (store w !! Root known) ->
  exists w',
    (forall fuel, S (List.length chain) < fuel ->
       backfillBlobs a seed fuel w
       = (Some (BackfillComplete (Root known)), w'))
    /\ store w' = storeWith chain (store w)
    /\ writes (trace w') = writes (trace w) ++ records chain
    /\ headerCalls (trace w')
       = headerCalls (trace w)
         ++ walkIds (Root_String (ParentRoot seed)) chain
         ++ [Root_String (ParentRoot (walkEnd seed chain))].
Proof.
  intros Hanc Hup Hnd Hnew Hseed Hno Hknown Hstored.
  destruct (stands_Forall (fun h => Root h <> OriginBlock (cfg a)) chain seed)
    as [Hstands Hend]; [done | |].
  { intros p Hp. apply Hno. unfold roots. apply list_elem_of_fmap. eauto. }
  set (first := Root_String (ParentRoot seed)).
  set (next := Root_String (ParentRoot (walkEnd seed chain))).
  set (w1 := afterWalk BlockSourceBackfill first chain w).
  assert (Hs1 : store w1 = storeWith chain (store w)).
  { unfold w1. by rewrite afterWalk_store. }
  assert (Hin : is_Some (store w1 !! Root known)).
  { rewrite Hs1. unfold storeWith. apply lookup_union_is_Some. by right. }
  exists (withEvents [EvLog LvlInfo "backfill complete"]
            (afterKnown next known w1)).
  split; [| split; [| split]].
  - intros fuel Hfuel. unfold backfillBlobs.
    replace fuel
      with (List.length chain + S (S (fuel - S (S (List.length chain)))))%nat
      by lia.
    rewrite (backfill_walk a chain Hup seed w) by done.
    rewrite iterate_S.
    rewrite (backfill_body_known a (walkEnd seed chain) _ known
               (afterKnown next known w1)); [| done | by apply persist_known].
    by rewrite iterate_S, backfill_body_done.
  - done.
  - cbn [withEvents afterKnown trace]. rewrite !writes_app.
    unfold w1. rewrite afterWalk_writes. cbn.
    by rewrite ?app_nil_r, <- ?app_assoc.
  - cbn [withEvents afterKnown trace]. rewrite !headerCalls_app.
    unfold w1. rewrite afterWalk_headerCalls. cbn.
    by rewrite ?app_nil_r, <- ?app_assoc.
Qed.

Lemma backfill_stops_at_stored_ancestor_witness :
  exists w',
    (forall fuel, 2 < fuel ->
       backfillBlobs (smallArchiver 1) (blockNo 10) fuel (worldWith [8%N])
       = (Some (BackfillComplete 8), w'))
    /\ writes (trace w') = [mkBlobData 9 twoBlobs]
    /\ headerCalls (trace w') = [Root_String 9; Root_String 8].
Proof.
  destruct (backfill_stops_at_stored_ancestor (smallArchiver 1) (blockNo 10)
              (blockNo 8) [(blockNo 9, twoBlobs)] (worldWith [8%N]))
    as (w' & Hrun & _ & Hw & Hc).
  - repeat constructor.
  - intros t. reflexivity.
  - by apply (bool_decide_unpack _).
  - intros r Hr. apply list_elem_of_singleton in Hr. by subst.
  - discriminate.
  - intros r Hr. apply list_elem_of_singleton in Hr. by subst.
  - intros t. reflexivity.
  - by eexists.
  - exists w'. by repeat split.
Defined.

(** While the node does not answer the header request for the parent,
    backfillBlobs neither returns nor moves: after any number of turns it is
    still running, it has asked for the same parent once per turn and slept
    backfillErrorRetryInterval after each request, and it has written
    nothing.  There is no bound on the number of attempts. *)
Theorem backfill_waits_for_the_node (a : ArchiverService)
  (seed : BeaconBlockHeader) :
  Root seed <> OriginBlock (cfg a) ->
  (forall t, exists e,
     client.BeaconBlockHeader (beaconClient a) t
       (Root_String (ParentRoot seed)) = Err e) ->
  forall (fuel : nat) (w : World),
  exists w',
    backfillBlobs a seed fuel w = (None, w')
    /\ store w' = store w
    /\ writes (trace w') = writes (trace w)
    /\ headerCalls (trace w')
       = headerCalls (trace w) ++ replicate fuel (Root_String (ParentRoot seed))
    /\ sleeps (trace w')
       = sleeps (trace w) ++ replicate fuel backfillErrorRetryInterval.
Proof.
  intros Ho Hdown. unfold backfillBlobs.
  induction fuel as [| fuel IH]; intros w.
  - exists w. cbn. by rewrite !app_nil_r.
  - destruct (Hdown (tick w)) as [e He].
    pose proof (persist_header_err a _ w e He) as Hp.
    rewrite iterate_S, (backfill_body_err a seed w e _ Ho Hp).
    match goal with
    | |- context [iterate _ fuel _ ?w1] =>
        destruct (IH w1) as (w' & Hrun & Hs & Hw & Hc & Hz)
    end.
    exists w'. split; [exact Hrun |].
    split; [by rewrite Hs |].
    split; [rewrite Hw; cbn; rewrite !writes_app; cbn;
            by rewrite !app_nil_r |].
    split.
    + rewrite Hc. cbn. rewrite !headerCalls_app. cbn.
      by rewrite ?app_nil_r, <- ?app_assoc.
    + rewrite Hz. cbn. rewrite !sleeps_app. cbn.
      by rewrite ?app_nil_r, <- ?app_assoc.
Qed.

Lemma backfill_waits_for_the_node_witness :
  exists w',
    backfillBlobs deadArchiver (blockNo 10) 3 emptyWorld = (None, w')
    /\ store w' = ∅
    /\ headerCalls (trace w') = replicate 3 (Root_String 9)
    /\ sleeps (trace w') = replicate 3 5000000000%Z.
Proof.
  destruct (backfill_waits_for_the_node deadArchiver (blockNo 10)) with
    (fuel := 3%nat) (w := emptyWorld) as (w' & Hrun & Hs & _ & Hc & Hz).
  - discriminate.
  - intros t. by eexists.
  - exists w'. by repeat split.
Defined.

(* --------------------------------------------------------------------- *)
(* Polls after a failure                                                   *)
(* --------------------------------------------------------------------- *)

(** A poll that fails below the head is not taken up again.  When a poll has
    stored a new head and the header request for the head's parent then
    fails, the poll returns; the next poll, with the head unchanged, asks for
    "head", finds it stored and returns at once: it does not ask for the
    parent and writes nothing, so live tracking leaves the parent unstored. *)
Theorem poll_abort_is_not_resumed (a : ArchiverService) (w : World)
  (h : BeaconBlockHeader) (bs : list BlobSidecar) (e : error) :
  storeUp (dataStoreClient a) ->
  client.BeaconBlockHeader (beaconClient a) (tick w) "head" = Ok h ->
  client.BlobSidecars (beaconClient a) (tick w + 2) (Root_String (Root h))
    = Ok bs ->
  store w !! Root h = None ->
  client.BeaconBlockHeader (beaconClient a) (tick w + 4)
    (Root_String (ParentRoot h)) = Err e ->
  client.BeaconBlockHeader (beaconClient a) (tick w + 5) "head" = Ok h ->
  exists w1 w2,
    (forall fuel, 1 < fuel ->
       processBlocksUntilKnownBlock a fuel w = (Some (PollAborted e), w1))
    /\ writes (trace w1) = writes (trace w) ++ [mkBlobData (Root h) bs]
    /\ (forall fuel, 0 < fuel ->
          processBlocksUntilKnownBlock a fuel w1
          = (Some (PollRefreshed (Root h) "head"), w2))
    /\ writes (trace w2) = writes (trace w1)
    /\ headerCalls (trace w2) = headerCalls (trace w1) ++ ["head"]
    /\ store w2 = <[Root h := bs]> (store w).
Proof.
  intros Hup Hhead Hbs Hnew Hfail Hhead'.
  replace (tick w + 2)%nat with (S (S (tick w))) in Hbs by lia.
  replace (tick w + 4)%nat with (S (S (S (S (tick w))))) in Hfail by lia.
  replace (tick w + 5)%nat with (S (S (S (S (S (tick w)))))) in Hhead' by lia.
  set (w0 := withEvents [EvLog LvlDebug "refreshing live data"] w).
  set (wa := withEvents [EvRecordProcessedBlock BlockSourceLive]
               (afterNew "head" h bs w0)).
  pose proof (persist_header_err a (Root_String (ParentRoot h)) wa e Hfail)
    as Hperr.
  match type of Hperr with
  | _ = (_, ?wb) =>
      set (w1 := withEvents
                   [EvLog LvlError "failed to update live blobs for block"] wb)
  end.
  set (w10 := withEvents [EvLog LvlDebug "refreshing live data"] w1).
  exists w1,
    (withEvents [EvLog LvlDebug "blob already exists";
                 EvLog LvlInfo "live data refreshed"]
       (afterKnown "head" h w10)).
  split; [| split; [| split; [| split; [| split]]]].
  - intros fuel Hfuel. rewrite poll_unfold. fold w0.
    destruct fuel as [| [| fuel]]; [lia | lia |].
    rewrite iterate_S.
    rewrite (poll_body_new a None "head" w0 h (afterNew "head" h bs w0))
      by (by apply persist_new).
    fold wa. rewrite iterate_S.
    by rewrite (poll_body_err a _ _ wa e _ Hperr).
  - cbn. rewrite !writes_app. cbn. by rewrite ?app_nil_r, <- ?app_assoc.
  - intros fuel Hfuel. rewrite poll_unfold. fold w10.
    destruct fuel as [| fuel]; [lia |]. rewrite iterate_S.
    rewrite (poll_body_known a None "head" w10 h (afterKnown "head" h w10));
      [done |].
    apply persist_known; [done | done |].
    cbn. by rewrite lookup_insert_eq.
  - cbn. rewrite !writes_app. cbn. by rewrite ?app_nil_r.
  - cbn. rewrite !headerCalls_app. cbn. by rewrite ?app_nil_r, <- ?app_assoc.
  - done.
Qed.

Lemma poll_abort_is_not_resumed_witness :
  exists w1 w2,
    (forall fuel, 1 < fuel ->
       processBlocksUntilKnownBlock
         (mkService (mkConfig 7 12 false) (downAt 4 smallChain) alwaysUp
            (Ok tt)) fuel emptyWorld
       = (Some (PollAborted "connection refused"), w1))
    /\ (forall fuel, 0 < fuel ->
          processBlocksUntilKnownBlock
            (mkService (mkConfig 7 12 false) (downAt 4 smallChain) alwaysUp
               (Ok tt)) fuel w1
          = (Some (PollRefreshed 10 "head"), w2))
    /\ writes (trace w2) = [mkBlobData 10 twoBlobs]
    /\ store w2 !! 9%N = None.
Proof.
  destruct (poll_abort_is_not_resumed
              (mkService (mkConfig 7 12 false) (downAt 4 smallChain) alwaysUp
                 (Ok tt))
              emptyWorld (blockNo 10) twoBlobs "connection refused")
    as (w1 & w2 & H1 & Hw1 & H2 & Hw2 & _ & Hs).
  - intros t. reflexivity.
  - reflexivity.
  - reflexivity.
  - reflexivity.
  - reflexivity.
  - reflexivity.
  - exists w1, w2. split; [exact H1 |]. split; [exact H2 |].
    split; [by rewrite Hw2, Hw1 |]. by rewrite Hs.
Defined.

Lemma persist_Ok_header (a : ArchiverService) (block : string) (w w' : World)
  (h : BeaconBlockHeader) (existed : bool) :
  persistBlobsForBlockToS3 a block w = (Ok (h, existed), w') ->
  client.BeaconBlockHeader (beaconClient a) (tick w) block = Ok h.
Proof.
  run.
  destruct (client.BeaconBlockHeader _ _ _) as [h0 | e]; flat_trace;
    [| discriminate].
  destruct (Unavailable _ _) as [e |]; flat_trace; [discriminate |].
  case_bool_decide; flat_trace; [by intros [= -> _ _] |].
  destruct (client.BlobSidecars _ _ _) as [bs | e]; flat_trace;
    [| discriminate].
  destruct (Unavailable _ _) as [e |]; flat_trace; [discriminate |].
  by intros [= -> _ _].
Qed.

(** When a poll returns through "live data refreshed", the start hash it
    reports is the root of the header the node gave for "head" at the first
    call of that poll, however many blocks the poll walked after it. *)
Theorem poll_reports_the_head (a : ArchiverService) (fuel : nat) (w w' : World)
  (startHash : Hash) (endHash : string) :
  processBlocksUntilKnownBlock a fuel w
    = (Some (PollRefreshed startHash endHash), w') ->
  exists h,
    client.BeaconBlockHeader (beaconClient a) (tick w) "head" = Ok h
    /\ startHash = Root h.
Proof.
  rewrite poll_unfold.
  set (w0 := withEvents [EvLog LvlDebug "refreshing live data"] w).
  intros Hrun.
  apply (iterate_exit (processBlocksUntilKnownBlock_body a)
           (fun st wi =>
              match fst st with
              | None => snd st = "head" /\ tick wi = tick w
              | Some h =>
                  client.BeaconBlockHeader (beaconClient a) (tick w) "head"
                  = Ok h
              end)
           (fun exit _ =>
              match exit with
              | PollRefreshed sh _ =>
                  exists h,
                    client.BeaconBlockHeader (beaconClient a) (tick w) "head"
                    = Ok h /\ sh = Root h
              | PollAborted _ => True
              end)) in Hrun; [done | | | done].
  - intros [start block] wi [start' block'] wi' Hi Hb. cbn [fst snd] in *.
    destruct (persistBlobsForBlockToS3 a block wi) as [[[h [|]] | e] w1] eqn:Hp.
    + rewrite (poll_body_known a start block wi h w1 Hp) in Hb. discriminate.
    + rewrite (poll_body_new a start block wi h w1 Hp) in Hb.
      injection Hb as <- <- <-. destruct start as [s |]; [done |].
      destruct Hi as [-> Ht]. cbn. rewrite <- Ht.
      by apply (persist_Ok_header a "head" wi w1 h false).
    + rewrite (poll_body_err a start block wi e w1 Hp) in Hb. discriminate.
  - intros [start block] wi r wi' Hi Hb. cbn [fst snd] in *.
    destruct (persistBlobsForBlockToS3 a block wi) as [[[h [|]] | e] w1] eqn:Hp.
    + rewrite (poll_body_known a start block wi h w1 Hp) in Hb.
      injection Hb as <- <-. destruct start as [s |]; [by exists s |].
      destruct Hi as [-> Ht]. exists h. split; [| done]. rewrite <- Ht.
      by apply (persist_Ok_header a "head" wi w1 h true).
    + rewrite (poll_body_new a start block wi h w1 Hp) in Hb. discriminate.
    + rewrite (poll_body_err a start block wi e w1 Hp) in Hb.
      by injection Hb as <- <-.
Qed.

Lemma poll_reports_the_head_witness :
  exists h,
    client.BeaconBlockHeader (beaconClient (smallArchiver 7)) 0 "head" = Ok h
    /\ 10%N = Root h.
Proof.
  apply (poll_reports_the_head (smallArchiver 7) 5 (worldWith [8%N])
           (snd (processBlocksUntilKnownBlock (smallArchiver 7) 5
                   (worldWith [8%N])))
           10 (Root_String 8)).
  vm_compute. reflexivity.
Defined.

(* --------------------------------------------------------------------- *)
(* The two block counters                                                  *)
(* --------------------------------------------------------------------- *)

Lemma storedCount_app (l k : list Event) :
  storedCount (l ++ k) = (storedCount l + storedCount k)%nat.
Proof. unfold storedCount. by rewrite omap_app, length_app. Qed.

Lemma processedCount_app (l k : list Event) :
  processedCount (l ++ k) = (processedCount l + processedCount k)%nat.
Proof. unfold processedCount. by rewrite omap_app, length_app. Qed.

Lemma balanced_refl (w : World) : balanced w w.
Proof. unfold balanced. lia. Qed.

Lemma balanced_trans (w1 w2 w3 : World) :
  balanced w1 w2 -> balanced w2 w3 -> balanced w1 w3.
Proof. unfold balanced. lia. Qed.

(* A call of persistBlobsForBlockToS3 counts a block as stored exactly when it
   answers that the block was new, and counts none as processed. *)
Lemma persist_counts (a : ArchiverService) (block : string) (w : World) :
  let r := persistBlobsForBlockToS3 a block w in
  processedCount (trace (snd r)) = processedCount (trace w)
  /\ storedCount (trace (snd r))
     = (storedCount (trace w) + newBlock (fst r))%nat.
Proof.
  run.
  destruct (client.BeaconBlockHeader _ _ _) as [h | e]; flat_trace;
    [| rewrite !processedCount_app, !storedCount_app; cbn; lia].
  destruct (Unavailable _ _) as [e |]; flat_trace;
    [rewrite !processedCount_app, !storedCount_app; cbn; lia |].
  case_bool_decide; flat_trace;
    [rewrite !processedCount_app, !storedCount_app; cbn; lia |].
  destruct (client.BlobSidecars _ _ _) as [bs | e]; flat_trace;
    [| rewrite !processedCount_app, !storedCount_app; cbn; lia].
  destruct (Unavailable _ _) as [e |]; flat_trace;
    rewrite !processedCount_app, !storedCount_app; cbn; lia.
Qed.

Lemma balanced_backfill_body (a : ArchiverService)
  (st : BeaconBlockHeader * bool) (w : World) :
  balanced w (snd (backfillBlobs_body a st w)).
Proof.
  unfold balanced. destruct st as [cur [|]].
  { rewrite backfill_body_done. cbn [snd withEvents trace].
    rewrite !processedCount_app, !storedCount_app. cbn. lia. }
  destruct (decide (Root cur = OriginBlock (cfg a))) as [Ho | Ho].
  { rewrite backfill_body_origin by done. cbn [snd withEvents trace].
    rewrite !processedCount_app, !storedCount_app. cbn. lia. }
  destruct (persist_counts a (Root_String (ParentRoot cur)) w) as [Hp Hs].
  destruct (persistBlobsForBlockToS3 a (Root_String (ParentRoot cur)) w)
    as [[[h [|]] | e] w1] eqn:E; cbn [fst snd newBlock] in Hp, Hs.
  - rewrite (backfill_body_known a cur w h w1 Ho E). cbn [snd]. lia.
  - rewrite (backfill_body_new a cur w h w1 Ho E). cbn [snd withEvents trace].
    rewrite !processedCount_app, !storedCount_app. cbn. lia.
  - rewrite (backfill_body_err a cur w e w1 Ho E). cbn [snd withEvents trace].
    rewrite !processedCount_app, !storedCount_app. cbn. lia.
Qed.

Lemma balanced_poll_body (a : ArchiverService)
  (st : option BeaconBlockHeader * string) (w : World) :
  balanced w (snd (processBlocksUntilKnownBlock_body a st w)).
Proof.
  unfold balanced. destruct st as [start block].
  destruct (persist_counts a block w) as [Hp Hs].
  destruct (persistBlobsForBlockToS3 a block w) as [[[h [|]] | e] w1] eqn:E;
    cbn [fst snd newBlock] in Hp, Hs.
  - rewrite (poll_body_known a start block w h w1 E). cbn [snd withEvents trace].
    rewrite !processedCount_app, !storedCount_app. cbn. lia.
  - rewrite (poll_body_new a start block w h w1 E). cbn [snd withEvents trace].
    rewrite !processedCount_app, !storedCount_app. cbn. lia.
  - rewrite (poll_body_err a start block w e w1 E). cbn [snd withEvents trace].
    rewrite !processedCount_app, !storedCount_app. cbn. lia.
Qed.

Lemma balanced_poll (a : ArchiverService) (fuel : nat) (w : World) :
  balanced w (snd (processBlocksUntilKnownBlock a fuel w)).
Proof.
  rewrite poll_unfold.
  apply (balanced_trans w
           (withEvents [EvLog LvlDebug "refreshing live data"] w)).
  - unfold balanced. cbn [snd withEvents trace].
    rewrite !processedCount_app, !storedCount_app. cbn. lia.
  - apply (iterate_rel (processBlocksUntilKnownBlock_body a) balanced).
    + apply balanced_refl.
    + apply balanced_trans.
    + apply balanced_poll_body.
Qed.

Lemma balanced_track (a : ArchiverService) (fuel : nat) (turns : list Turn) :
  forall (bf : option (BeaconBlockHeader * bool)) (w : World),
    balanced w (snd (trackLatestBlocks a fuel bf turns w)).
Proof.
  induction turns as [| turn rest IH]; intros bf w; [apply balanced_refl |].
  destruct turn as [| [| |]]; cbn [trackLatestBlocks];
    try apply balanced_refl.
  - destruct bf as [st |]; [| apply IH].
    unfold bind at 1. pose proof (balanced_backfill_body a st w) as Hb.
    destruct (backfillBlobs_body a st w) as [[st' | r] w1]; cbn [snd] in Hb;
      (eapply balanced_trans; [exact Hb | apply IH]).
  - unfold bind at 1. pose proof (balanced_poll a fuel w) as Hp.
    destruct (processBlocksUntilKnownBlock a fuel w) as [[exit |] w1];
      cbn [snd] in Hp; [| done].
    eapply balanced_trans; [exact Hp | apply IH].
Qed.

(** RecordProcessedBlock misses the seed.  In a run of Start that begins with
    an empty trace (the metrics server, when enabled, having started), every
    block counted by RecordStoredBlobs is also counted, once, by
    RecordProcessedBlock, except the block Start itself stores for "head":
    the two counters differ by one when the seed block was new and agree when
    it was stored already or could not be stored. *)
Theorem Start_counts_all_but_the_seed (a : ArchiverService) (fuel : nat)
  (turns : list Turn) (w : World) :
  (MetricsEnabled (cfg a) = true -> metricsServer a = Ok tt) ->
  trace w = [] ->
  let w' := snd (Start a fuel turns w) in
  storedCount (trace w')
  = (processedCount (trace w')
     + newBlock (fst (persistBlobsForBlockToS3 a "head" (startWorld a w))))%nat.
Proof.
  intros Hm Hempty.
  assert (Hsw : storedCount (trace (startWorld a w)) = 0%nat
                /\ processedCount (trace (startWorld a w)) = 0%nat).
  { unfold startWorld. destruct (MetricsEnabled (cfg a)); cbn;
      by rewrite Hempty. }
  destruct Hsw as [Hs0 Hp0].
  destruct (persist_counts a "head" (startWorld a w)) as [Hp Hs].
  destruct (persistBlobsForBlockToS3 a "head" (startWorld a w))
    as [[[h ex] | e] w1] eqn:E; cbn [fst snd] in *.
  - rewrite (Start_seeded a fuel turns w h ex w1 Hm E).
    pose proof (balanced_track a fuel turns (Some (h, false)) w1) as Hb.
    unfold balanced in Hb. lia.
  - rewrite (Start_seed_failed a fuel turns w e w1 Hm E).
    cbn [snd withEvents trace].
    rewrite !processedCount_app, !storedCount_app. cbn. cbn in Hs. lia.
Qed.

Lemma Start_counts_all_but_the_seed_witness :
  storedCount (trace (snd (Start (smallArchiver 8) 5
                 [TurnBackfill; TurnSelect TickC; TurnBackfill] emptyWorld)))
  = 3%nat
  /\ processedCount (trace (snd (Start (smallArchiver 8) 5
                 [TurnBackfill; TurnSelect TickC; TurnBackfill] emptyWorld)))
     = 2%nat.
Proof.
  pose proof (Start_counts_all_but_the_seed (smallArchiver 8) 5
                [TurnBackfill; TurnSelect TickC; TurnBackfill] emptyWorld)
    as H.
  cbn zeta in H. split; [| vm_compute; reflexivity].
  rewrite H; [vm_compute; reflexivity | discriminate | reflexivity].
Defined.
